(** * eBPF benchmark programs: a shallow embedding and its properties

    The three eBPF objects of the repository ([map_operations.c],
    [ringbuf_throughput.c], [perfbuf_throughput.c]) and the shared header
    [benchmark.h] are embedded as programs over the kernel helpers they
    call.  A program is a finite tree of helper calls; running it against a
    model of the kernel objects (maps, ring buffer, perf buffers, clock)
    yields the return value, the final state and the trace of calls. *)

From Stdlib Require Import ZArith List Lia Bool.
From stdpp Require Import base gmap list.

Local Open Scope Z_scope.

(** ** Kernel side: integers, helper programs, map and buffer objects *)

Module Kernel.

(** [__u32] and [__u64] values are integers with the wrap-around of the C
    types written out. *)
Definition wrap32 (z : Z) : Z := z mod 2 ^ 32.
Definition wrap64 (z : Z) : Z := z mod 2 ^ 64.
Definition U64_MAX : Z := 2 ^ 64 - 1.

(** Flags and error numbers of the map helpers. *)
Definition BPF_ANY : Z := 0.
Definition BPF_NOEXIST : Z := 1.
Definition BPF_EXIST : Z := 2.
Definition ENOENT : Z := 2.
Definition E2BIG : Z := 7.
Definition EEXIST : Z := 17.
Definition EINVAL : Z := 22.
Definition ENOSPC : Z := 28.

(** A helper program: either it returns, or it calls a helper of the
    signature [E] and continues with the helper's result.  The type is
    inductive, so a program is a finite tree: it cannot loop. *)
Inductive prog (E : Type -> Type) (R : Type) : Type :=
| Ret (r : R)
| Call {X : Type} (e : E X) (k : X -> prog E R).

Arguments Ret {E R} r.
Arguments Call {E R X} e k.

(** Sequencing of a block of statements with what follows it. *)
Fixpoint bind {E A B} (p : prog E A) (f : A -> prog E B) : prog E B :=
  match p with
  | Ret a => f a
  | Call e k => Call e (fun x => bind (k x) f)
  end.

(** One helper call together with the value it returned. *)
Record obs (E : Type -> Type) : Type :=
  Obs { obs_ty : Type; obs_call : E obs_ty; obs_res : obs_ty }.

Arguments Obs {E obs_ty} obs_call obs_res.
Arguments obs_ty {E} o.
Arguments obs_call {E} o.
Arguments obs_res {E} o.

Record outcome (E : Type -> Type) (S R : Type) : Type :=
  Outcome { retval : R; post : S; trace : list (obs E) }.

Arguments Outcome {E S R} retval post trace.
Arguments retval {E S R} o.
Arguments post {E S R} o.
Arguments trace {E S R} o.

Section Run.
Context {E : Type -> Type} {S : Type}.
Variable handle : forall X, E X -> S -> X * S.

Fixpoint run {R} (p : prog E R) (s : S) : outcome E S R :=
  match p with
  | Ret r => Outcome r s []
  | Call e k =>
      let xs := handle _ e s in
      let o := run (k (fst xs)) (snd xs) in
      Outcome (retval o) (post o) (Obs e (fst xs) :: trace o)
  end.

(** Number of helper calls of a run. *)
Definition steps {R} (p : prog E R) (s : S) : nat := length (trace (run p s)).

End Run.

(** Names of the helpers, to compare traces of different objects. *)
Variant helper : Type :=
| h_get_current_pid_uid | h_get_current_uid_gid | h_get_smp_processor_id
| h_ktime_get_ns | h_map_lookup_elem | h_map_update_elem
| h_sync_fetch_and_add | h_ringbuf_reserve | h_ringbuf_submit
| h_perf_event_output.

(** What the helpers read from the invocation context: the identity words
    of the current task, the executing CPU, and the monotonic clock as the
    sequence of values that successive reads return. *)
Record env : Type := {
  pid_uid : Z;      (* result of bpf_get_current_pid_uid *)
  uid_gid : Z;      (* result of bpf_get_current_uid_gid *)
  cpu : nat;        (* result of bpf_get_smp_processor_id *)
  clock : nat -> Z  (* n-th read of bpf_ktime_get_ns *)
}.

(** [BPF_MAP_TYPE_HASH]: lookup gives the value of a present key; update
    replaces a present key and inserts an absent one while fewer than
    [max_entries] keys are stored. *)
Definition hash_update {V} (max_entries : Z) (key : Z) (value : V) (flags : Z)
    (tab : gmap Z V) : Z * gmap Z V :=
  if BPF_EXIST <? flags then (- EINVAL, tab) else
  match tab !! key with
  | Some _ =>
      if flags =? BPF_NOEXIST then (- EEXIST, tab) else (0, <[key := value]> tab)
  | None =>
      if flags =? BPF_EXIST then (- ENOENT, tab)
      else if Z.of_nat (size tab) <? max_entries then (0, <[key := value]> tab)
      else (- E2BIG, tab)
  end.

(** [BPF_MAP_TYPE_ARRAY]: every index below [max_entries] is present. *)
Definition array_index (max_entries : Z) (key : Z) : option nat :=
  if (0 <=? key) && (key <? max_entries) then Some (Z.to_nat key) else None.

Definition array_update {V} (max_entries : Z) (key : Z) (value : V) (flags : Z)
    (arr : list V) : Z * list V :=
  if BPF_EXIST <? flags then (- EINVAL, arr) else
  match array_index max_entries key with
  | None => (- E2BIG, arr)
  | Some i =>
      if flags =? BPF_NOEXIST then (- EEXIST, arr) else (0, <[i := value]> arr)
  end.

(** Per-CPU values: one [__u64] per CPU.  A program touches only the copy
    of the CPU it runs on; an element created from a program holds the
    given value on that CPU and zero on the others. *)
Definition pcpu_set (c : nat) (v : Z) (pv : nat -> Z) : nat -> Z :=
  fun c' => if Nat.eqb c' c then v else pv c'.

Definition pcpu_init_value (c : nat) (v : Z) : nat -> Z :=
  pcpu_set c v (fun _ => 0).

(** [__sync_fetch_and_add(p, n)] on a [__u64] map value: the old value is
    returned and the sum, reduced to 64 bits, is stored. *)
Definition array_fetch_add (i : nat) (n : Z) (arr : list Z) : Z * list Z :=
  (default 0 (arr !! i), alter (fun v => wrap64 (v + n)) i arr).

Definition hash_fetch_add (key n : Z) (tab : gmap Z Z) : Z * gmap Z Z :=
  (default 0 (tab !! key), alter (fun v => wrap64 (v + n)) key tab).

Definition pcpu_add (c : nat) (n : Z) (pv : nat -> Z) : nat -> Z :=
  pcpu_set c (wrap64 (pv c + n)) pv.

(** [BPF_MAP_TYPE_RINGBUF]: a record of [size] bytes occupies its 8-byte
    header and the data, rounded up to 8 bytes.  A reservation succeeds
    when the producer position stays at most [max_entries - 1] bytes ahead
    of the consumer position.  The ring is the list of submitted records
    the consumer has not read yet, oldest first. *)
Definition BPF_RINGBUF_HDR_SZ : Z := 8.

Definition round_up (x a : Z) : Z := (x + a - 1) / a * a.

Definition ringbuf_record_len (size : Z) : Z :=
  round_up (size + BPF_RINGBUF_HDR_SZ) 8.

Definition ringbuf_has_room {T} (max_entries size : Z) (rb : list T) : bool :=
  Z.of_nat (length rb) * ringbuf_record_len size + ringbuf_record_len size
    <=? max_entries - 1.

(** [BPF_MAP_TYPE_PERF_EVENT_ARRAY]: slot [c] holds the buffer that user
    space opened for CPU [c], if any.  A buffer has room for [pb_capacity]
    records; a record written to a full buffer is counted in [pb_lost]. *)
Record perf_buffer (T : Type) : Type := {
  pb_capacity : nat;
  pb_records : list T;
  pb_lost : Z
}.

Arguments pb_capacity {T} p.
Arguments pb_records {T} p.
Arguments pb_lost {T} p.

Definition perf_event_output {T} (max_entries : Z) (c : nat) (rec : T)
    (pe : list (option (perf_buffer T))) : Z * list (option (perf_buffer T)) :=
  if max_entries <=? Z.of_nat c then (- E2BIG, pe) else
  match pe !! c with
  | Some (Some b) =>
      if (length (pb_records b) <? pb_capacity b)%nat
      then (0, <[c := Some {| pb_capacity := pb_capacity b;
                              pb_records := pb_records b ++ [rec];
                              pb_lost := pb_lost b |}]> pe)
      else (- ENOSPC, <[c := Some {| pb_capacity := pb_capacity b;
                                     pb_records := pb_records b;
                                     pb_lost := wrap64 (pb_lost b + 1) |}]> pe)
  | _ => (- ENOENT, pe)
  end.

#[global] Arguments wrap32 : simpl never.
#[global] Arguments wrap64 : simpl never.
#[global] Arguments hash_update : simpl never.
#[global] Arguments array_index : simpl never.
#[global] Arguments array_update : simpl never.
#[global] Arguments array_fetch_add : simpl never.
#[global] Arguments hash_fetch_add : simpl never.
#[global] Arguments pcpu_set : simpl never.
#[global] Arguments pcpu_add : simpl never.
#[global] Arguments ringbuf_has_room : simpl never.
#[global] Arguments perf_event_output : simpl never.

End Kernel.

Import Kernel.

(** Notation for programs: a helper call whose result is named, a helper
    call whose result is dropped, and a block of statements. *)
Notation "'let!' x ':=' e 'in' k" := (Call e (fun x => k))
  (at level 10, x name, e at level 200, k at level 200, only parsing).
Notation "'do!' e 'in' k" := (Call e (fun _ => k))
  (at level 10, e at level 200, k at level 200, only parsing).
Notation "'block!' p 'in' k" := (bind p (fun _ => k))
  (at level 10, p at level 200, k at level 200, only parsing).

(** ** benchmark.h *)

Module Benchmark.

(** [struct event] *)
Record event : Type := {
  timestamp : Z;    (* __u64 *)
  pid : Z;          (* __u32 *)
  cpu_id : Z;       (* __u32 *)
  event_type : Z;   (* __u32 *)
  data : Z          (* __u32 *)
}.

(** [struct stats] *)
Record stats : Type := {
  count : Z;        (* __u64 *)
  sum_latency : Z;  (* __u64 *)
  min_latency : Z;  (* __u64 *)
  max_latency : Z   (* __u64 *)
}.

Definition EVENT_TYPE_KPROBE : Z := 1.
Definition EVENT_TYPE_TRACEPOINT : Z := 2.
Definition EVENT_TYPE_UPROBE : Z := 3.
Definition EVENT_TYPE_XDP : Z := 4.
Definition EVENT_TYPE_TC : Z := 5.

(** [sizeof(struct event)]: 8 + 4 * 4 bytes. *)
Definition sizeof_event : Z := 24.

End Benchmark.

(** Contexts the kernel passes to the programs. *)

(** [struct pt_regs], seen through [PT_REGS_PARM1]. *)
Record pt_regs : Type := { PT_REGS_PARM1 : Z }.

(** [struct trace_event_raw_sys_enter]: syscall number and arguments. *)
Record trace_event_raw_sys_enter : Type := { id : Z; args : list Z }.

(** [struct bpf_raw_tracepoint_args] *)
Record bpf_raw_tracepoint_args : Type := { raw_args : list Z }.

(** ** map_operations.c *)

Module MapOperations.

(** The four keyed maps and the ring buffer of the object. *)
Variant map : Type := hash_map | array_map | percpu_array | percpu_hash.
Variant ringbuf : Type := ringbuf_events.

Definition max_entries (m : map) : Z :=
  match m with
  | hash_map => 10240
  | array_map => 256
  | percpu_array => 256
  | percpu_hash => 1024
  end.

Definition ringbuf_max_entries (rb : ringbuf) : Z := 256 * 1024.

(** [struct latency_event] *)
Record latency_event : Type := {
  timestamp_start : Z;  (* __u64 *)
  timestamp_end : Z;    (* __u64 *)
  operation : Z;        (* __u32 *)
  pid : Z               (* __u32 *)
}.

(** [sizeof(struct latency_event)]: 8 + 8 + 4 + 4 bytes. *)
Definition sizeof_latency_event : Z := 24.

(** Field assignments [e->f = v]. *)
Definition set_timestamp_start (v : Z) (e : latency_event) : latency_event :=
  {| timestamp_start := v; timestamp_end := timestamp_end e;
     operation := operation e; pid := pid e |}.
Definition set_timestamp_end (v : Z) (e : latency_event) : latency_event :=
  {| timestamp_start := timestamp_start e; timestamp_end := v;
     operation := operation e; pid := pid e |}.
Definition set_operation (v : Z) (e : latency_event) : latency_event :=
  {| timestamp_start := timestamp_start e; timestamp_end := timestamp_end e;
     operation := v; pid := pid e |}.
Definition set_pid (v : Z) (e : latency_event) : latency_event :=
  {| timestamp_start := timestamp_start e; timestamp_end := timestamp_end e;
     operation := operation e; pid := v |}.

(** A pointer to a map value, as [bpf_map_lookup_elem] returns it: the
    map, the key and, for the per-CPU maps, the CPU whose copy it is. *)
Variant ptr : Type := Ptr (m : map) (key : Z) (c : nat).

(** The helpers the programs call. *)
Variant call : Type -> Type :=
| bpf_get_current_pid_uid : call Z
| bpf_ktime_get_ns : call Z
| bpf_map_lookup_elem (m : map) (key : Z) : call (option ptr)
| bpf_map_update_elem (m : map) (key value flags : Z) : call Z
| __sync_fetch_and_add (p : ptr) (n : Z) : call Z
| bpf_ringbuf_reserve (rb : ringbuf) (size flags : Z) : call (option latency_event)
| bpf_ringbuf_submit (e : latency_event) (flags : Z) : call unit.

(** Contents of the maps, and the number of clock reads so far. *)
Record state : Type := {
  hash_map_tab : gmap Z Z;
  array_map_val : list Z;
  percpu_array_val : list (nat -> Z);
  percpu_hash_tab : gmap Z (nat -> Z);
  ringbuf_events_data : list latency_event;
  ktime_reads : nat
}.

Definition with_hash_map (t : gmap Z Z) (s : state) : state :=
  {| hash_map_tab := t; array_map_val := array_map_val s;
     percpu_array_val := percpu_array_val s; percpu_hash_tab := percpu_hash_tab s;
     ringbuf_events_data := ringbuf_events_data s; ktime_reads := ktime_reads s |}.
Definition with_array_map (a : list Z) (s : state) : state :=
  {| hash_map_tab := hash_map_tab s; array_map_val := a;
     percpu_array_val := percpu_array_val s; percpu_hash_tab := percpu_hash_tab s;
     ringbuf_events_data := ringbuf_events_data s; ktime_reads := ktime_reads s |}.
Definition with_percpu_array (a : list (nat -> Z)) (s : state) : state :=
  {| hash_map_tab := hash_map_tab s; array_map_val := array_map_val s;
     percpu_array_val := a; percpu_hash_tab := percpu_hash_tab s;
     ringbuf_events_data := ringbuf_events_data s; ktime_reads := ktime_reads s |}.
Definition with_percpu_hash (t : gmap Z (nat -> Z)) (s : state) : state :=
  {| hash_map_tab := hash_map_tab s; array_map_val := array_map_val s;
     percpu_array_val := percpu_array_val s; percpu_hash_tab := t;
     ringbuf_events_data := ringbuf_events_data s; ktime_reads := ktime_reads s |}.
Definition with_ringbuf_events (r : list latency_event) (s : state) : state :=
  {| hash_map_tab := hash_map_tab s; array_map_val := array_map_val s;
     percpu_array_val := percpu_array_val s; percpu_hash_tab := percpu_hash_tab s;
     ringbuf_events_data := r; ktime_reads := ktime_reads s |}.
Definition with_ktime_reads (n : nat) (s : state) : state :=
  {| hash_map_tab := hash_map_tab s; array_map_val := array_map_val s;
     percpu_array_val := percpu_array_val s; percpu_hash_tab := percpu_hash_tab s;
     ringbuf_events_data := ringbuf_events_data s; ktime_reads := n |}.

(** The object as loaded: empty hash maps, zeroed arrays, empty ring. *)
Definition init : state :=
  {| hash_map_tab := ∅;
     array_map_val := replicate 256 0;
     percpu_array_val := replicate 256 (fun _ => 0);
     percpu_hash_tab := ∅;
     ringbuf_events_data := [];
     ktime_reads := 0 |}.

Definition map_lookup_elem (ev : env) (m : map) (key : Z) (s : state) : option ptr :=
  match m with
  | hash_map =>
      match hash_map_tab s !! key with
      | Some _ => Some (Ptr m key (cpu ev))
      | None => None
      end
  | percpu_hash =>
      match percpu_hash_tab s !! key with
      | Some _ => Some (Ptr m key (cpu ev))
      | None => None
      end
  | array_map | percpu_array =>
      match array_index (max_entries m) key with
      | Some _ => Some (Ptr m key (cpu ev))
      | None => None
      end
  end.

Definition map_update_elem (ev : env) (m : map) (key value flags : Z) (s : state)
    : Z * state :=
  match m with
  | hash_map =>
      let r := hash_update (max_entries m) key value flags (hash_map_tab s) in
      (fst r, with_hash_map (snd r) s)
  | array_map =>
      let r := array_update (max_entries m) key value flags (array_map_val s) in
      (fst r, with_array_map (snd r) s)
  | percpu_array =>
      let old := default (fun _ => 0) (percpu_array_val s !! Z.to_nat key) in
      let r := array_update (max_entries m) key (pcpu_set (cpu ev) value old) flags
                 (percpu_array_val s) in
      (fst r, with_percpu_array (snd r) s)
  | percpu_hash =>
      let new :=
        match percpu_hash_tab s !! key with
        | Some old => pcpu_set (cpu ev) value old
        | None => pcpu_init_value (cpu ev) value
        end in
      let r := hash_update (max_entries m) key new flags (percpu_hash_tab s) in
      (fst r, with_percpu_hash (snd r) s)
  end.

Definition fetch_and_add (p : ptr) (n : Z) (s : state) : Z * state :=
  match p with
  | Ptr hash_map key _ =>
      let r := hash_fetch_add key n (hash_map_tab s) in
      (fst r, with_hash_map (snd r) s)
  | Ptr array_map key _ =>
      let r := array_fetch_add (Z.to_nat key) n (array_map_val s) in
      (fst r, with_array_map (snd r) s)
  | Ptr percpu_array key c =>
      (default 0 ((fun pv => pv c) <$> percpu_array_val s !! Z.to_nat key),
       with_percpu_array (alter (pcpu_add c n) (Z.to_nat key) (percpu_array_val s)) s)
  | Ptr percpu_hash key c =>
      (default 0 ((fun pv => pv c) <$> percpu_hash_tab s !! key),
       with_percpu_hash (alter (pcpu_add c n) key (percpu_hash_tab s)) s)
  end.

(** A reserved record is memory of the ring whose previous contents are
    of no consequence: the programs assign every field before submitting. *)
Definition blank : latency_event :=
  {| timestamp_start := 0; timestamp_end := 0; operation := 0; pid := 0 |}.

Definition ringbuf_reserve (rb : ringbuf) (size : Z) (s : state) : option latency_event :=
  if ringbuf_has_room (ringbuf_max_entries rb) size (ringbuf_events_data s)
  then Some blank else None.

Definition ringbuf_submit (e : latency_event) (s : state) : state :=
  with_ringbuf_events (ringbuf_events_data s ++ [e]) s.

Definition handle (ev : env) (X : Type) (c : call X) (s : state) : X * state :=
  match c in call X return X * state with
  | bpf_get_current_pid_uid => (pid_uid ev, s)
  | bpf_ktime_get_ns => (clock ev (ktime_reads s), with_ktime_reads (S (ktime_reads s)) s)
  | bpf_map_lookup_elem m key => (map_lookup_elem ev m key s, s)
  | bpf_map_update_elem m key value flags => map_update_elem ev m key value flags s
  | __sync_fetch_and_add p n => fetch_and_add p n s
  | bpf_ringbuf_reserve rb size flags => (ringbuf_reserve rb size s, s)
  | bpf_ringbuf_submit e flags => (tt, ringbuf_submit e s)
  end.

(** [SEC("tp/syscalls/sys_enter_openat")] *)
Definition hash_map_lookup (ctx : trace_event_raw_sys_enter) : prog call Z :=
  let! id0 := bpf_get_current_pid_uid in
  let key := wrap32 (Z.land (Z.shiftr id0 32) 0xFF) in
  let! start := bpf_ktime_get_ns in
  let! val := bpf_map_lookup_elem hash_map key in
  let! end_ := bpf_ktime_get_ns in
  let! e := bpf_ringbuf_reserve ringbuf_events sizeof_latency_event 0 in
  match e with
  | None => Ret 1
  | Some e =>
      let e := set_timestamp_start start e in
      let e := set_timestamp_end end_ e in
      let e := set_operation 0 e in
      let! id1 := bpf_get_current_pid_uid in
      let e := set_pid (wrap32 (Z.shiftr id1 32)) e in
      do! bpf_ringbuf_submit e 0 in
      Ret 0
  end.

(** [SEC("tp/syscalls/sys_enter_read")] *)
Definition hash_map_update (ctx : trace_event_raw_sys_enter) : prog call Z :=
  let! id0 := bpf_get_current_pid_uid in
  let key := wrap32 (Z.land (Z.shiftr id0 32) 0xFF) in
  let! value := bpf_ktime_get_ns in
  let! start := bpf_ktime_get_ns in
  do! bpf_map_update_elem hash_map key value BPF_ANY in
  let! end_ := bpf_ktime_get_ns in
  let! e := bpf_ringbuf_reserve ringbuf_events sizeof_latency_event 0 in
  match e with
  | None => Ret 1
  | Some e =>
      let e := set_timestamp_start start e in
      let e := set_timestamp_end end_ e in
      let e := set_operation 1 e in
      let! id1 := bpf_get_current_pid_uid in
      let e := set_pid (wrap32 (Z.shiftr id1 32)) e in
      do! bpf_ringbuf_submit e 0 in
      Ret 0
  end.

(** [SEC("tp/syscalls/sys_enter_write")] *)
Definition array_map_benchmark (ctx : trace_event_raw_sys_enter) : prog call Z :=
  let! id0 := bpf_get_current_pid_uid in
  let key := wrap32 (Z.land (Z.shiftr id0 32) 0xFF) in
  let! start := bpf_ktime_get_ns in
  let! val := bpf_map_lookup_elem array_map key in
  block! (match val with
         | Some val => do! __sync_fetch_and_add val 1 in Ret tt
         | None => Ret tt
         end) in
  let! end_ := bpf_ktime_get_ns in
  let! e := bpf_ringbuf_reserve ringbuf_events sizeof_latency_event 0 in
  match e with
  | None => Ret 1
  | Some e =>
      let e := set_timestamp_start start e in
      let e := set_timestamp_end end_ e in
      let e := set_operation 2 e in
      let! id1 := bpf_get_current_pid_uid in
      let e := set_pid (wrap32 (Z.shiftr id1 32)) e in
      do! bpf_ringbuf_submit e 0 in
      Ret 0
  end.

(** [SEC("tp/syscalls/sys_enter_close")] *)
Definition percpu_array_benchmark (ctx : trace_event_raw_sys_enter) : prog call Z :=
  let! id0 := bpf_get_current_pid_uid in
  let key := wrap32 (Z.land (Z.shiftr id0 32) 0xFF) in
  let! start := bpf_ktime_get_ns in
  let! val := bpf_map_lookup_elem percpu_array key in
  block! (match val with
         | Some val => do! __sync_fetch_and_add val 1 in Ret tt
         | None => Ret tt
         end) in
  let! end_ := bpf_ktime_get_ns in
  let! e := bpf_ringbuf_reserve ringbuf_events sizeof_latency_event 0 in
  match e with
  | None => Ret 1
  | Some e =>
      let e := set_timestamp_start start e in
      let e := set_timestamp_end end_ e in
      let e := set_operation 3 e in
      let! id1 := bpf_get_current_pid_uid in
      let e := set_pid (wrap32 (Z.shiftr id1 32)) e in
      do! bpf_ringbuf_submit e 0 in
      Ret 0
  end.

(** [SEC("tp/syscalls/sys_enter_stat")] *)
Definition percpu_hash_benchmark (ctx : trace_event_raw_sys_enter) : prog call Z :=
  let! id0 := bpf_get_current_pid_uid in
  let key := wrap32 (Z.land (Z.shiftr id0 32) 0xFF) in
  let! start := bpf_ktime_get_ns in
  let! val := bpf_map_lookup_elem percpu_hash key in
  block! (match val with
         | None =>
             let init_val := 1 in
             do! bpf_map_update_elem percpu_hash key init_val BPF_ANY in Ret tt
         | Some val => do! __sync_fetch_and_add val 1 in Ret tt
         end) in
  let! end_ := bpf_ktime_get_ns in
  let! e := bpf_ringbuf_reserve ringbuf_events sizeof_latency_event 0 in
  match e with
  | None => Ret 1
  | Some e =>
      let e := set_timestamp_start start e in
      let e := set_timestamp_end end_ e in
      let e := set_operation 4 e in
      let! id1 := bpf_get_current_pid_uid in
      let e := set_pid (wrap32 (Z.shiftr id1 32)) e in
      do! bpf_ringbuf_submit e 0 in
      Ret 0
  end.

(** What a trace shows: the helpers called, whether each reservation got
    a record, the records submitted, the map accesses with their keys, and
    the maps on which a lookup returned [NULL]. *)
Definition helper_of {X} (c : call X) : helper :=
  match c with
  | bpf_get_current_pid_uid => h_get_current_pid_uid
  | bpf_ktime_get_ns => h_ktime_get_ns
  | bpf_map_lookup_elem _ _ => h_map_lookup_elem
  | bpf_map_update_elem _ _ _ _ => h_map_update_elem
  | __sync_fetch_and_add _ _ => h_sync_fetch_and_add
  | bpf_ringbuf_reserve _ _ _ => h_ringbuf_reserve
  | bpf_ringbuf_submit _ _ => h_ringbuf_submit
  end.

Definition helpers (tr : list (obs call)) : list helper :=
  List.map (fun o => helper_of (obs_call o)) tr.

Definition reserve_of (o : obs call) : option bool :=
  match obs_call o in call X return X -> option bool with
  | bpf_ringbuf_reserve _ _ _ =>
      fun r => Some (match r with Some _ => true | None => false end)
  | _ => fun _ => None
  end (obs_res o).

Definition reserves (tr : list (obs call)) : list bool := omap reserve_of tr.

Definition submit_of (o : obs call) : option latency_event :=
  match obs_call o with
  | bpf_ringbuf_submit e _ => Some e
  | _ => None
  end.

Definition submitted (tr : list (obs call)) : list latency_event := omap submit_of tr.

Definition access_of (o : obs call) : option (map * Z) :=
  match obs_call o with
  | bpf_map_lookup_elem m key => Some (m, key)
  | bpf_map_update_elem m key _ _ => Some (m, key)
  | _ => None
  end.

Definition accesses (tr : list (obs call)) : list (map * Z) := omap access_of tr.

Definition null_lookup_of (o : obs call) : option map :=
  match obs_call o in call X return X -> option map with
  | bpf_map_lookup_elem m _ =>
      fun r => match r with Some _ => None | None => Some m end
  | _ => fun _ => None
  end (obs_res o).

Definition null_lookups (tr : list (obs call)) : list map := omap null_lookup_of tr.

(** The programs of the object, by name. *)
Variant program : Type :=
| prog_hash_map_lookup | prog_hash_map_update | prog_array_map_benchmark
| prog_percpu_array_benchmark | prog_percpu_hash_benchmark.

Definition body (p : program) : trace_event_raw_sys_enter -> prog call Z :=
  match p with
  | prog_hash_map_lookup => hash_map_lookup
  | prog_hash_map_update => hash_map_update
  | prog_array_map_benchmark => array_map_benchmark
  | prog_percpu_array_benchmark => percpu_array_benchmark
  | prog_percpu_hash_benchmark => percpu_hash_benchmark
  end.

(** One invocation of a program on a CPU. *)
Definition invoke (p : program) (ev : env) (ctx : trace_event_raw_sys_enter)
    (s : state) : outcome call state Z :=
  run (handle ev) (body p ctx) s.

(** States the object can be in: it is loaded, programs are invoked by
    any task on any CPU, and the consumer takes records off the ring. *)
Inductive reachable : state -> Prop :=
| reachable_init : reachable init
| reachable_invoke p ev ctx s :
    reachable s -> reachable (post (invoke p ev ctx s))
| reachable_consume n s :
    reachable s ->
    reachable (with_ringbuf_events (drop n (ringbuf_events_data s)) s).

(** The key every program computes, and the pid it reports. *)
Definition reported_pid (ev : env) : Z := wrap32 (Z.shiftr (pid_uid ev) 32).
Definition key_of (ev : env) : Z := Z.land (reported_pid ev) 0xFF.

(** The map whose operation a program measures, if the operation can
    write to the map. *)
Definition measured (p : program) : option map :=
  match p with
  | prog_hash_map_lookup => None
  | prog_hash_map_update => Some hash_map
  | prog_array_map_benchmark => Some array_map
  | prog_percpu_array_benchmark => Some percpu_array
  | prog_percpu_hash_benchmark => Some percpu_hash
  end.

(** The keyed maps of two states agree, except possibly map [m]. *)
Definition maps_agree_except (m : option map) (s s' : state) : Prop :=
  (m = Some hash_map \/ hash_map_tab s' = hash_map_tab s) /\
  (m = Some array_map \/ array_map_val s' = array_map_val s) /\
  (m = Some percpu_array \/ percpu_array_val s' = percpu_array_val s) /\
  (m = Some percpu_hash \/ percpu_hash_tab s' = percpu_hash_tab s).

(** What the programs keep true of the maps: keys of the hash maps are
    masked pids, the arrays keep their 256 entries, the counters they hold
    are [__u64] values, and the ring holds no more records than fit. *)
Definition well_formed (s : state) : Prop :=
  (forall k v, hash_map_tab s !! k = Some v -> 0 <= k <= 255) /\
  (length (array_map_val s) = 256%nat /\
   Forall (fun v => 0 <= v <= U64_MAX) (array_map_val s)) /\
  (length (percpu_array_val s) = 256%nat /\
   Forall (fun pv => forall c : nat, 0 <= pv c <= U64_MAX) (percpu_array_val s)) /\
  (forall k pv, percpu_hash_tab s !! k = Some pv ->
     0 <= k <= 255 /\ forall c : nat, 0 <= pv c <= U64_MAX) /\
  Z.of_nat (length (ringbuf_events_data s)) <= 8191.

End MapOperations.

(** ** ringbuf_throughput.c *)

Module RingbufThroughput.
Import Benchmark.

Variant map : Type := counters.
Variant ringbuf : Type := ringbuf_events.

Definition max_entries (m : map) : Z :=
  match m with counters => 10 end.

Definition ringbuf_max_entries (rb : ringbuf) : Z := 256 * 1024.

(** Field assignments [e->f = v] on a [struct event]. *)
Definition set_timestamp (v : Z) (e : event) : event :=
  {| timestamp := v; pid := pid e; cpu_id := cpu_id e;
     event_type := event_type e; data := data e |}.
Definition set_pid (v : Z) (e : event) : event :=
  {| timestamp := timestamp e; pid := v; cpu_id := cpu_id e;
     event_type := event_type e; data := data e |}.
Definition set_cpu_id (v : Z) (e : event) : event :=
  {| timestamp := timestamp e; pid := pid e; cpu_id := v;
     event_type := event_type e; data := data e |}.
Definition set_event_type (v : Z) (e : event) : event :=
  {| timestamp := timestamp e; pid := pid e; cpu_id := cpu_id e;
     event_type := v; data := data e |}.
Definition set_data (v : Z) (e : event) : event :=
  {| timestamp := timestamp e; pid := pid e; cpu_id := cpu_id e;
     event_type := event_type e; data := v |}.

Variant ptr : Type := Ptr (m : map) (key : Z).

Variant call : Type -> Type :=
| bpf_ringbuf_reserve (rb : ringbuf) (size flags : Z) : call (option event)
| bpf_ktime_get_ns : call Z
| bpf_get_current_uid_gid : call Z
| bpf_get_smp_processor_id : call Z
| bpf_ringbuf_submit (e : event) (flags : Z) : call unit
| bpf_map_lookup_elem (m : map) (key : Z) : call (option ptr)
| __sync_fetch_and_add (p : ptr) (n : Z) : call Z.

Record state : Type := {
  ringbuf_events_data : list event;
  counters_val : list Z;
  ktime_reads : nat
}.

Definition init : state :=
  {| ringbuf_events_data := []; counters_val := replicate 10 0; ktime_reads := 0 |}.

Definition blank : event :=
  {| timestamp := 0; pid := 0; cpu_id := 0; event_type := 0; data := 0 |}.

Definition ringbuf_reserve (rb : ringbuf) (size : Z) (s : state) : option event :=
  if ringbuf_has_room (ringbuf_max_entries rb) size (ringbuf_events_data s)
  then Some blank else None.

Definition ringbuf_submit (e : event) (s : state) : state :=
  {| ringbuf_events_data := ringbuf_events_data s ++ [e];
     counters_val := counters_val s; ktime_reads := ktime_reads s |}.

Definition map_lookup_elem (m : map) (key : Z) : option ptr :=
  match array_index (max_entries m) key with
  | Some _ => Some (Ptr m key)
  | None => None
  end.

Definition fetch_and_add (p : ptr) (n : Z) (s : state) : Z * state :=
  match p with
  | Ptr counters key =>
      let r := array_fetch_add (Z.to_nat key) n (counters_val s) in
      (fst r, {| ringbuf_events_data := ringbuf_events_data s;
                 counters_val := snd r; ktime_reads := ktime_reads s |})
  end.

Definition handle (ev : env) (X : Type) (c : call X) (s : state) : X * state :=
  match c in call X return X * state with
  | bpf_ringbuf_reserve rb size flags => (ringbuf_reserve rb size s, s)
  | bpf_ktime_get_ns =>
      (clock ev (ktime_reads s),
       {| ringbuf_events_data := ringbuf_events_data s;
          counters_val := counters_val s; ktime_reads := S (ktime_reads s) |})
  | bpf_get_current_uid_gid => (uid_gid ev, s)
  | bpf_get_smp_processor_id => (wrap32 (Z.of_nat (cpu ev)), s)
  | bpf_ringbuf_submit e flags => (tt, ringbuf_submit e s)
  | bpf_map_lookup_elem m key => (map_lookup_elem m key, s)
  | __sync_fetch_and_add p n => fetch_and_add p n s
  end.

(** [SEC("kprobe/do_sys_openat2")] *)
Definition kprobe_openat (ctx : pt_regs) : prog call Z :=
  let zero := 0 in
  let! e := bpf_ringbuf_reserve ringbuf_events sizeof_event 0 in
  match e with
  | None => Ret 1
  | Some e =>
      let! now := bpf_ktime_get_ns in
      let e := set_timestamp now e in
      let! ug := bpf_get_current_uid_gid in
      let e := set_pid (wrap32 (Z.shiftr ug 32)) e in
      let! c := bpf_get_smp_processor_id in
      let e := set_cpu_id c e in
      let e := set_event_type EVENT_TYPE_KPROBE e in
      let e := set_data (wrap32 (PT_REGS_PARM1 ctx)) e in
      do! bpf_ringbuf_submit e 0 in
      let! counter := bpf_map_lookup_elem counters zero in
      block! (match counter with
              | Some counter => do! __sync_fetch_and_add counter 1 in Ret tt
              | None => Ret tt
              end) in
      Ret 0
  end.

(** [SEC("tp/syscalls/sys_enter_openat")] *)
Definition tracepoint_openat (ctx : trace_event_raw_sys_enter) : prog call Z :=
  let one := 1 in
  let! e := bpf_ringbuf_reserve ringbuf_events sizeof_event 0 in
  match e with
  | None => Ret 1
  | Some e =>
      let! now := bpf_ktime_get_ns in
      let e := set_timestamp now e in
      let! ug := bpf_get_current_uid_gid in
      let e := set_pid (wrap32 (Z.shiftr ug 32)) e in
      let! c := bpf_get_smp_processor_id in
      let e := set_cpu_id c e in
      let e := set_event_type EVENT_TYPE_TRACEPOINT e in
      let e := set_data (wrap32 (nth 1 (args ctx) 0)) e in
      do! bpf_ringbuf_submit e 0 in
      let! counter := bpf_map_lookup_elem counters one in
      block! (match counter with
              | Some counter => do! __sync_fetch_and_add counter 1 in Ret tt
              | None => Ret tt
              end) in
      Ret 0
  end.

(** [SEC("raw_tp/sys_enter")] *)
Definition raw_tracepoint_handler (ctx : bpf_raw_tracepoint_args) : prog call Z :=
  let two := 2 in
  let! e := bpf_ringbuf_reserve ringbuf_events sizeof_event 0 in
  match e with
  | None => Ret 1
  | Some e =>
      let! now := bpf_ktime_get_ns in
      let e := set_timestamp now e in
      let! ug := bpf_get_current_uid_gid in
      let e := set_pid (wrap32 (Z.shiftr ug 32)) e in
      let! c := bpf_get_smp_processor_id in
      let e := set_cpu_id c e in
      let e := set_event_type EVENT_TYPE_TRACEPOINT e in
      let e := set_data 0 e in
      do! bpf_ringbuf_submit e 0 in
      let! counter := bpf_map_lookup_elem counters two in
      block! (match counter with
              | Some counter => do! __sync_fetch_and_add counter 1 in Ret tt
              | None => Ret tt
              end) in
      Ret 0
  end.

(** What a trace shows: the helpers called, whether each reservation got
    a record, and the events submitted. *)
Definition helper_of {X} (c : call X) : helper :=
  match c with
  | bpf_ringbuf_reserve _ _ _ => h_ringbuf_reserve
  | bpf_ktime_get_ns => h_ktime_get_ns
  | bpf_get_current_uid_gid => h_get_current_uid_gid
  | bpf_get_smp_processor_id => h_get_smp_processor_id
  | bpf_ringbuf_submit _ _ => h_ringbuf_submit
  | bpf_map_lookup_elem _ _ => h_map_lookup_elem
  | __sync_fetch_and_add _ _ => h_sync_fetch_and_add
  end.

Definition helpers (tr : list (obs call)) : list helper :=
  List.map (fun o => helper_of (obs_call o)) tr.

Definition reserve_of (o : obs call) : option bool :=
  match obs_call o in call X return X -> option bool with
  | bpf_ringbuf_reserve _ _ _ =>
      fun r => Some (match r with Some _ => true | None => false end)
  | _ => fun _ => None
  end (obs_res o).

Definition reserves (tr : list (obs call)) : list bool := omap reserve_of tr.

Definition submit_of (o : obs call) : option event :=
  match obs_call o with
  | bpf_ringbuf_submit e _ => Some e
  | _ => None
  end.

Definition submitted (tr : list (obs call)) : list event := omap submit_of tr.

(** The programs of the object, each with the context of its hook. *)
Variant program : Type :=
| prog_kprobe_openat (ctx : pt_regs)
| prog_tracepoint_openat (ctx : trace_event_raw_sys_enter)
| prog_raw_tracepoint_handler (ctx : bpf_raw_tracepoint_args).

Definition body (p : program) : prog call Z :=
  match p with
  | prog_kprobe_openat ctx => kprobe_openat ctx
  | prog_tracepoint_openat ctx => tracepoint_openat ctx
  | prog_raw_tracepoint_handler ctx => raw_tracepoint_handler ctx
  end.

Definition invoke (p : program) (ev : env) (s : state) : outcome call state Z :=
  run (handle ev) (body p) s.

End RingbufThroughput.

(** ** perfbuf_throughput.c *)

Module PerfbufThroughput.
Import Benchmark.

Variant map : Type := counters.
Variant perf_event_array : Type := perf_events.

Definition max_entries (m : map) : Z :=
  match m with counters => 10 end.

Definition perf_max_entries (m : perf_event_array) : Z := 256.

Definition BPF_F_INDEX_MASK : Z := 0xffffffff.
Definition BPF_F_CURRENT_CPU : Z := BPF_F_INDEX_MASK.

(** [struct benchmark_perf_event] *)
Record benchmark_perf_event : Type := {
  timestamp : Z;    (* __u64 *)
  pid : Z;          (* __u32 *)
  cpu_id : Z;       (* __u32 *)
  event_type : Z;   (* __u32 *)
  data : Z          (* __u32 *)
}.

Definition sizeof_benchmark_perf_event : Z := 24.

Definition set_timestamp (v : Z) (e : benchmark_perf_event) : benchmark_perf_event :=
  {| timestamp := v; pid := pid e; cpu_id := cpu_id e;
     event_type := event_type e; data := data e |}.
Definition set_pid (v : Z) (e : benchmark_perf_event) : benchmark_perf_event :=
  {| timestamp := timestamp e; pid := v; cpu_id := cpu_id e;
     event_type := event_type e; data := data e |}.
Definition set_cpu_id (v : Z) (e : benchmark_perf_event) : benchmark_perf_event :=
  {| timestamp := timestamp e; pid := pid e; cpu_id := v;
     event_type := event_type e; data := data e |}.
Definition set_event_type (v : Z) (e : benchmark_perf_event) : benchmark_perf_event :=
  {| timestamp := timestamp e; pid := pid e; cpu_id := cpu_id e;
     event_type := v; data := data e |}.
Definition set_data (v : Z) (e : benchmark_perf_event) : benchmark_perf_event :=
  {| timestamp := timestamp e; pid := pid e; cpu_id := cpu_id e;
     event_type := event_type e; data := v |}.

(** [struct benchmark_perf_event event = {}] *)
Definition zeroed : benchmark_perf_event :=
  {| timestamp := 0; pid := 0; cpu_id := 0; event_type := 0; data := 0 |}.

Variant ptr : Type := Ptr (m : map) (key : Z).

Variant call : Type -> Type :=
| bpf_ktime_get_ns : call Z
| bpf_get_current_uid_gid : call Z
| bpf_get_smp_processor_id : call Z
| bpf_perf_event_output (m : perf_event_array) (flags : Z)
    (e : benchmark_perf_event) (size : Z) : call Z
| bpf_map_lookup_elem (m : map) (key : Z) : call (option ptr)
| __sync_fetch_and_add (p : ptr) (n : Z) : call Z.

Record state : Type := {
  perf_events_buf : list (option (perf_buffer benchmark_perf_event));
  counters_val : list Z;
  ktime_reads : nat
}.

(** The object as loaded: no perf buffer is open yet, counters are zero. *)
Definition init : state :=
  {| perf_events_buf := replicate 256 None;
     counters_val := replicate 10 0; ktime_reads := 0 |}.

Definition map_lookup_elem (m : map) (key : Z) : option ptr :=
  match array_index (max_entries m) key with
  | Some _ => Some (Ptr m key)
  | None => None
  end.

Definition fetch_and_add (p : ptr) (n : Z) (s : state) : Z * state :=
  match p with
  | Ptr counters key =>
      let r := array_fetch_add (Z.to_nat key) n (counters_val s) in
      (fst r, {| perf_events_buf := perf_events_buf s;
                 counters_val := snd r; ktime_reads := ktime_reads s |})
  end.

(** The low 32 bits of the flags select the slot; [BPF_F_CURRENT_CPU]
    selects the slot of the executing CPU. *)
Definition perf_output (ev : env) (m : perf_event_array) (flags : Z)
    (e : benchmark_perf_event) (s : state) : Z * state :=
  let index := Z.land flags BPF_F_INDEX_MASK in
  let c := if index =? BPF_F_CURRENT_CPU then cpu ev else Z.to_nat index in
  let r := perf_event_output (perf_max_entries m) c e (perf_events_buf s) in
  (fst r, {| perf_events_buf := snd r;
             counters_val := counters_val s; ktime_reads := ktime_reads s |}).

Definition handle (ev : env) (X : Type) (c : call X) (s : state) : X * state :=
  match c in call X return X * state with
  | bpf_ktime_get_ns =>
      (clock ev (ktime_reads s),
       {| perf_events_buf := perf_events_buf s;
          counters_val := counters_val s; ktime_reads := S (ktime_reads s) |})
  | bpf_get_current_uid_gid => (uid_gid ev, s)
  | bpf_get_smp_processor_id => (wrap32 (Z.of_nat (cpu ev)), s)
  | bpf_perf_event_output m flags e size => perf_output ev m flags e s
  | bpf_map_lookup_elem m key => (map_lookup_elem m key, s)
  | __sync_fetch_and_add p n => fetch_and_add p n s
  end.

(** [SEC("kprobe/do_sys_openat2")] *)
Definition kprobe_perf (ctx : pt_regs) : prog call Z :=
  let event := zeroed in
  let zero := 0 in
  let! now := bpf_ktime_get_ns in
  let event := set_timestamp now event in
  let! ug := bpf_get_current_uid_gid in
  let event := set_pid (wrap32 (Z.shiftr ug 32)) event in
  let! c := bpf_get_smp_processor_id in
  let event := set_cpu_id c event in
  let event := set_event_type EVENT_TYPE_KPROBE event in
  let event := set_data (wrap32 (PT_REGS_PARM1 ctx)) event in
  do! bpf_perf_event_output perf_events BPF_F_CURRENT_CPU event
        sizeof_benchmark_perf_event in
  let! counter := bpf_map_lookup_elem counters zero in
  block! (match counter with
          | Some counter => do! __sync_fetch_and_add counter 1 in Ret tt
          | None => Ret tt
          end) in
  Ret 0.

(** [SEC("tp/syscalls/sys_enter_openat")] *)
Definition tracepoint_perf (ctx : trace_event_raw_sys_enter) : prog call Z :=
  let event := zeroed in
  let one := 1 in
  let! now := bpf_ktime_get_ns in
  let event := set_timestamp now event in
  let! ug := bpf_get_current_uid_gid in
  let event := set_pid (wrap32 (Z.shiftr ug 32)) event in
  let! c := bpf_get_smp_processor_id in
  let event := set_cpu_id c event in
  let event := set_event_type EVENT_TYPE_TRACEPOINT event in
  let event := set_data (wrap32 (nth 1 (args ctx) 0)) event in
  do! bpf_perf_event_output perf_events BPF_F_CURRENT_CPU event
        sizeof_benchmark_perf_event in
  let! counter := bpf_map_lookup_elem counters one in
  block! (match counter with
          | Some counter => do! __sync_fetch_and_add counter 1 in Ret tt
          | None => Ret tt
          end) in
  Ret 0.

(** [SEC("raw_tp/sys_enter")]: the event is filled in but not written
    anywhere; only the counter is updated. *)
Definition raw_tracepoint_perf (ctx : bpf_raw_tracepoint_args) : prog call Z :=
  let event := zeroed in
  let two := 2 in
  let! now := bpf_ktime_get_ns in
  let event := set_timestamp now event in
  let! ug := bpf_get_current_uid_gid in
  let event := set_pid (wrap32 (Z.shiftr ug 32)) event in
  let! c := bpf_get_smp_processor_id in
  let event := set_cpu_id c event in
  let event := set_event_type EVENT_TYPE_TRACEPOINT event in
  let event := set_data 0 event in
  let! counter := bpf_map_lookup_elem counters two in
  block! (match counter with
          | Some counter => do! __sync_fetch_and_add counter 1 in Ret tt
          | None => Ret tt
          end) in
  Ret 0.

(** What a trace shows: the helpers called, and the events written to the
    perf buffer with the result of each write. *)
Definition helper_of {X} (c : call X) : helper :=
  match c with
  | bpf_ktime_get_ns => h_ktime_get_ns
  | bpf_get_current_uid_gid => h_get_current_uid_gid
  | bpf_get_smp_processor_id => h_get_smp_processor_id
  | bpf_perf_event_output _ _ _ _ => h_perf_event_output
  | bpf_map_lookup_elem _ _ => h_map_lookup_elem
  | __sync_fetch_and_add _ _ => h_sync_fetch_and_add
  end.

Definition helpers (tr : list (obs call)) : list helper :=
  List.map (fun o => helper_of (obs_call o)) tr.

Definition output_of (o : obs call) : option (benchmark_perf_event * Z) :=
  match obs_call o in call X return X -> option (benchmark_perf_event * Z) with
  | bpf_perf_event_output _ _ e _ => fun rc => Some (e, rc)
  | _ => fun _ => None
  end (obs_res o).

Definition outputs (tr : list (obs call)) : list (benchmark_perf_event * Z) :=
  omap output_of tr.

Variant program : Type :=
| prog_kprobe_perf (ctx : pt_regs)
| prog_tracepoint_perf (ctx : trace_event_raw_sys_enter)
| prog_raw_tracepoint_perf (ctx : bpf_raw_tracepoint_args).

Definition body (p : program) : prog call Z :=
  match p with
  | prog_kprobe_perf ctx => kprobe_perf ctx
  | prog_tracepoint_perf ctx => tracepoint_perf ctx
  | prog_raw_tracepoint_perf ctx => raw_tracepoint_perf ctx
  end.

Definition invoke (p : program) (ev : env) (s : state) : outcome call state Z :=
  run (handle ev) (body p) s.

End PerfbufThroughput.

(** ** The three objects under one dispatcher *)

Module Harness.

Record system : Type := {
  map_operations : MapOperations.state;
  ringbuf_throughput : RingbufThroughput.state;
  perfbuf_throughput : PerfbufThroughput.state
}.

Definition init : system :=
  {| map_operations := MapOperations.init;
     ringbuf_throughput := RingbufThroughput.init;
     perfbuf_throughput := PerfbufThroughput.init |}.

(** A producer callback: one program of one object, with its context. *)
Variant producer : Type :=
| map_producer (p : MapOperations.program) (ctx : trace_event_raw_sys_enter)
| ringbuf_producer (p : RingbufThroughput.program)
| perfbuf_producer (p : PerfbufThroughput.program).

(** What one invocation yields: the return value, the system afterwards,
    the helpers called in order, and the outcome of each reservation
    ([true] when a record was obtained). *)
Record firing : Type := {
  ret : Z;
  after : system;
  called : list helper;
  reserved : list bool
}.

Definition fire (pr : producer) (ev : env) (sys : system) : firing :=
  match pr with
  | map_producer p ctx =>
      let o := MapOperations.invoke p ev ctx (map_operations sys) in
      {| ret := retval o;
         after := {| map_operations := post o;
                     ringbuf_throughput := ringbuf_throughput sys;
                     perfbuf_throughput := perfbuf_throughput sys |};
         called := MapOperations.helpers (trace o);
         reserved := MapOperations.reserves (trace o) |}
  | ringbuf_producer p =>
      let o := RingbufThroughput.invoke p ev (ringbuf_throughput sys) in
      {| ret := retval o;
         after := {| map_operations := map_operations sys;
                     ringbuf_throughput := post o;
                     perfbuf_throughput := perfbuf_throughput sys |};
         called := RingbufThroughput.helpers (trace o);
         reserved := RingbufThroughput.reserves (trace o) |}
  | perfbuf_producer p =>
      let o := PerfbufThroughput.invoke p ev (perfbuf_throughput sys) in
      {| ret := retval o;
         after := {| map_operations := map_operations sys;
                     ringbuf_throughput := ringbuf_throughput sys;
                     perfbuf_throughput := post o |};
         called := PerfbufThroughput.helpers (trace o);
         reserved := [] |}
  end.

(** A reservation of the invocation returned [NULL]. *)
Definition reserve_failed (f : firing) : bool := existsb negb (reserved f).

(** What the ring-buffer consumers can see. *)
Definition visible (sys : system)
    : list MapOperations.latency_event * list Benchmark.event :=
  (MapOperations.ringbuf_events_data (map_operations sys),
   RingbufThroughput.ringbuf_events_data (ringbuf_throughput sys)).

(** The counters of the system: the [counters] arrays of the two
    throughput objects. *)
Definition counters (sys : system) : list Z * list Z :=
  (RingbufThroughput.counters_val (ringbuf_throughput sys),
   PerfbufThroughput.counters_val (perfbuf_throughput sys)).

(** The keyed maps other than the counters. *)
Definition keyed_maps (sys : system)
    : gmap Z Z * list Z * list (nat -> Z) * gmap Z (nat -> Z) :=
  (MapOperations.hash_map_tab (map_operations sys),
   MapOperations.array_map_val (map_operations sys),
   MapOperations.percpu_array_val (map_operations sys),
   MapOperations.percpu_hash_tab (map_operations sys)).

(** The reading of a failed reservation that has the drop accounted for:
    nothing becomes visible, no map is modified, and some counter changes
    to record the drop. *)
Definition drop_accounted (pr : producer) (ev : env) (sys : system) : Prop :=
  reserve_failed (fire pr ev sys) = true ->
  visible (after (fire pr ev sys)) = visible sys /\
  keyed_maps (after (fire pr ev sys)) = keyed_maps sys /\
  counters (after (fire pr ev sys)) <> counters sys.

(** The hook a throughput program is attached to, from its [SEC]. *)
Variant hook : Type := kprobe | tracepoint | raw_tracepoint.

Definition hook_of (pr : producer) : option hook :=
  match pr with
  | map_producer _ _ => None
  | ringbuf_producer (RingbufThroughput.prog_kprobe_openat _) => Some kprobe
  | ringbuf_producer (RingbufThroughput.prog_tracepoint_openat _) => Some tracepoint
  | ringbuf_producer (RingbufThroughput.prog_raw_tracepoint_handler _) =>
      Some raw_tracepoint
  | perfbuf_producer (PerfbufThroughput.prog_kprobe_perf _) => Some kprobe
  | perfbuf_producer (PerfbufThroughput.prog_tracepoint_perf _) => Some tracepoint
  | perfbuf_producer (PerfbufThroughput.prog_raw_tracepoint_perf _) =>
      Some raw_tracepoint
  end.

(** The counter slot each hook's programs name in their lookup. *)
Definition slot_of (h : hook) : nat :=
  match h with kprobe => 0 | tracepoint => 1 | raw_tracepoint => 2 end%nat.

(** The event type the programs of each hook write. *)
Definition event_type_of (h : hook) : Z :=
  match h with
  | kprobe => Benchmark.EVENT_TYPE_KPROBE
  | tracepoint => Benchmark.EVENT_TYPE_TRACEPOINT
  | raw_tracepoint => Benchmark.EVENT_TYPE_TRACEPOINT
  end.

(** Event types of the events an invocation publishes: submitted to the
    ring buffer, or handed to the perf buffer. *)
Definition published_types (pr : producer) (ev : env) (sys : system) : list Z :=
  match pr with
  | map_producer _ _ => []
  | ringbuf_producer p =>
      List.map Benchmark.event_type
        (RingbufThroughput.submitted
           (trace (RingbufThroughput.invoke p ev (ringbuf_throughput sys))))
  | perfbuf_producer p =>
      List.map (fun x => PerfbufThroughput.event_type (fst x))
        (PerfbufThroughput.outputs
           (trace (PerfbufThroughput.invoke p ev (perfbuf_throughput sys))))
  end.

(** The reading in which the event type tells the hooks apart: no event
    of a raw-tracepoint program has the type of an event of a
    static-tracepoint program. *)
Definition raw_tracepoint_distinct (ev : env) (sys : system)
    (ctx1 : trace_event_raw_sys_enter) (ctx2 : bpf_raw_tracepoint_args) : Prop :=
  forall t1 t2,
    In t1 (published_types
             (ringbuf_producer (RingbufThroughput.prog_tracepoint_openat ctx1)) ev sys) ->
    In t2 (published_types
             (ringbuf_producer (RingbufThroughput.prog_raw_tracepoint_handler ctx2)) ev sys) ->
    t1 <> t2.

(** A program is bounded by [n] when no run of it, whatever the helpers
    return, makes more than [n] helper calls. *)
Fixpoint bounded {E R} (n : nat) (p : prog E R) : Prop :=
  match p with
  | Ret _ => True
  | Call _ k =>
      match n with
      | O => False
      | S n' => forall x, bounded n' (k x)
      end
  end.

Definition bounded_producer (n : nat) (pr : producer) : Prop :=
  match pr with
  | map_producer p ctx => bounded n (MapOperations.body p ctx)
  | ringbuf_producer p => bounded n (RingbufThroughput.body p)
  | perfbuf_producer p => bounded n (PerfbufThroughput.body p)
  end.

End Harness.

(** ** Statistics records and the keyed aggregator *)

Module Aggregator.
Import Benchmark.

(** Modelled from the spec: the sources declare [struct stats] in
    [benchmark.h] and never update one; the merge operation, the fresh
    record and the keyed aggregator are missing.  The spec gives the merge
    as [count += 1; sum += d; min = min(min, d); max = max(max, d)] on
    [u64] fields, and has a record with [count = 0] hold sentinels in
    [min_latency] and [max_latency]: the sentinels are the neutral values
    of [min] and [max] on [u64], so that the first merge yields the sample
    itself. *)
Definition fresh : stats :=
  {| count := 0; sum_latency := 0; min_latency := U64_MAX; max_latency := 0 |}.

(** Modelled from the spec: the in-place merge of one latency sample, with
    the wrap-around of the [__u64] fields of [struct stats]. *)
Definition merge (r : stats) (delta : Z) : stats :=
  {| count := wrap64 (count r + 1);
     sum_latency := wrap64 (sum_latency r + delta);
     min_latency := Z.min (min_latency r) delta;
     max_latency := Z.max (max_latency r) delta |}.

Definition merge_all (ls : list Z) : stats := fold_left merge ls fresh.

Definition total (ls : list Z) : Z := fold_right Z.add 0 ls.

(** Modelled from the spec: the error taxonomy of the capture operations. *)
Variant CaptureError : Type :=
| CapacityExceeded | ShardIndexOutOfRange | InvalidRecordSize.

(** Modelled from the spec: the keyed aggregator, a mapping from key to
    record of fixed capacity [max_entries] with a count of the updates it
    dropped. *)
Record KeyedAggregator : Type := {
  max_entries : nat;
  records : gmap Z stats;
  dropped_updates : Z
}.

Definition create (n : nat) : KeyedAggregator :=
  {| max_entries := n; records := ∅; dropped_updates := 0 |}.

(** Modelled from the spec: [lookup_or_init] returns the record of the
    key, creating a fresh one if the key is absent and the capacity allows;
    otherwise it fails with [CapacityExceeded] and counts the drop. *)
Definition lookup_or_init (key : Z) (a : KeyedAggregator)
    : (CaptureError + stats) * KeyedAggregator :=
  match records a !! key with
  | Some r => (inr r, a)
  | None =>
      if (size (records a) <? max_entries a)%nat
      then (inr fresh,
            {| max_entries := max_entries a;
               records := <[key := fresh]> (records a);
               dropped_updates := dropped_updates a |})
      else (inl CapacityExceeded,
            {| max_entries := max_entries a;
               records := records a;
               dropped_updates := wrap64 (dropped_updates a + 1) |})
  end.

(** Modelled from the spec: [merge(key, latency_ns)] on the aggregator. *)
Definition merge_key (key latency_ns : Z) (a : KeyedAggregator)
    : (CaptureError + unit) * KeyedAggregator :=
  match lookup_or_init key a with
  | (inr r, a') =>
      (inr tt,
       {| max_entries := max_entries a';
          records := <[key := merge r latency_ns]> (records a');
          dropped_updates := dropped_updates a' |})
  | (inl e, a') => (inl e, a')
  end.

(** A sequence of merges, with the result of each. *)
Fixpoint merge_keys (ops : list (Z * Z)) (a : KeyedAggregator)
    : list (CaptureError + unit) * KeyedAggregator :=
  match ops with
  | [] => ([], a)
  | (key, latency_ns) :: ops' =>
      let r := merge_key key latency_ns a in
      let rs := merge_keys ops' (snd r) in
      (fst r :: fst rs, snd rs)
  end.

End Aggregator.

(** ** What the programs write, and sequences of invocations *)

Module Workload.

(** The operation code a map-benchmark program assigns to [e->operation]. *)
Definition operation_of (p : MapOperations.program) : Z :=
  match p with
  | MapOperations.prog_hash_map_lookup => 0
  | MapOperations.prog_hash_map_update => 1
  | MapOperations.prog_array_map_benchmark => 2
  | MapOperations.prog_percpu_array_benchmark => 3
  | MapOperations.prog_percpu_hash_benchmark => 4
  end.

(** The clock reads a map-benchmark program makes before it takes the
    start timestamp: [hash_map_update] first reads the value it stores. *)
Definition reads_before_start (p : MapOperations.program) : nat :=
  match p with
  | MapOperations.prog_hash_map_update => 1%nat
  | _ => 0%nat
  end.

(** The event a ring-buffer program fills in, given the clock value it
    reads: the data word is the first register argument, the second
    syscall argument, or zero. *)
Definition event_of (p : RingbufThroughput.program) (ev : env) (now : Z)
    : Benchmark.event :=
  {| Benchmark.timestamp := now;
     Benchmark.pid := wrap32 (Z.shiftr (uid_gid ev) 32);
     Benchmark.cpu_id := wrap32 (Z.of_nat (cpu ev));
     Benchmark.event_type :=
       match p with
       | RingbufThroughput.prog_kprobe_openat _ => Benchmark.EVENT_TYPE_KPROBE
       | _ => Benchmark.EVENT_TYPE_TRACEPOINT
       end;
     Benchmark.data :=
       match p with
       | RingbufThroughput.prog_kprobe_openat ctx => wrap32 (PT_REGS_PARM1 ctx)
       | RingbufThroughput.prog_tracepoint_openat ctx => wrap32 (nth 1 (args ctx) 0)
       | RingbufThroughput.prog_raw_tracepoint_handler _ => 0
       end |}.

(** The counter slot a ring-buffer program names, and a perf-buffer
    program names. *)
Definition ringbuf_slot (p : RingbufThroughput.program) : nat :=
  match p with
  | RingbufThroughput.prog_kprobe_openat _ => 0
  | RingbufThroughput.prog_tracepoint_openat _ => 1
  | RingbufThroughput.prog_raw_tracepoint_handler _ => 2
  end%nat.

Definition perfbuf_slot (p : PerfbufThroughput.program) : nat :=
  match p with
  | PerfbufThroughput.prog_kprobe_perf _ => 0
  | PerfbufThroughput.prog_tracepoint_perf _ => 1
  | PerfbufThroughput.prog_raw_tracepoint_perf _ => 2
  end%nat.

(** The event a perf-buffer program fills in. *)
Definition perf_event_of (p : PerfbufThroughput.program) (ev : env) (now : Z)
    : PerfbufThroughput.benchmark_perf_event :=
  {| PerfbufThroughput.timestamp := now;
     PerfbufThroughput.pid := wrap32 (Z.shiftr (uid_gid ev) 32);
     PerfbufThroughput.cpu_id := wrap32 (Z.of_nat (cpu ev));
     PerfbufThroughput.event_type :=
       match p with
       | PerfbufThroughput.prog_kprobe_perf _ => Benchmark.EVENT_TYPE_KPROBE
       | _ => Benchmark.EVENT_TYPE_TRACEPOINT
       end;
     PerfbufThroughput.data :=
       match p with
       | PerfbufThroughput.prog_kprobe_perf ctx => wrap32 (PT_REGS_PARM1 ctx)
       | PerfbufThroughput.prog_tracepoint_perf ctx => wrap32 (nth 1 (args ctx) 0)
       | PerfbufThroughput.prog_raw_tracepoint_perf _ => 0
       end |}.

(** A run of the ring-buffer object: programs are invoked, and the
    consumer takes records off the ring in between. *)
Variant step : Type :=
| Invoke (p : RingbufThroughput.program) (ev : env)
| Consume (n : nat).

Definition apply_step (st : step) (s : RingbufThroughput.state)
    : RingbufThroughput.state :=
  match st with
  | Invoke p ev => post (RingbufThroughput.invoke p ev s)
  | Consume n =>
      {| RingbufThroughput.ringbuf_events_data :=
           drop n (RingbufThroughput.ringbuf_events_data s);
         RingbufThroughput.counters_val := RingbufThroughput.counters_val s;
         RingbufThroughput.ktime_reads := RingbufThroughput.ktime_reads s |}
  end.

Fixpoint replay (w : list step) (s : RingbufThroughput.state)
    : RingbufThroughput.state :=
  match w with
  | [] => s
  | st :: w' => replay w' (apply_step st s)
  end.

(** Number of events that the programs naming counter slot [j] submit in
    the course of a run. *)
Definition submitted_by (j : nat) (st : step) (s : RingbufThroughput.state) : Z :=
  match st with
  | Invoke p ev =>
      if Nat.eqb (ringbuf_slot p) j
      then Z.of_nat (length (RingbufThroughput.submitted
                               (trace (RingbufThroughput.invoke p ev s))))
      else 0
  | Consume _ => 0
  end.

Fixpoint submissions (j : nat) (w : list step) (s : RingbufThroughput.state) : Z :=
  match w with
  | [] => 0
  | st :: w' => submitted_by j st s + submissions j w' (apply_step st s)
  end.

End Workload.

(** ** Concrete inputs used in examples *)

Module Samples.

Definition regs : pt_regs := {| PT_REGS_PARM1 := 5 |}.
Definition sys_enter : trace_event_raw_sys_enter := {| id := 257; args := [3; 64; 0] |}.
Definition raw_sys_enter : bpf_raw_tracepoint_args := {| raw_args := [0; 257] |}.

(** Task 7 (upper word of both identity words) on CPU 1, with a clock
    that advances by one per read. *)
Definition task : env :=
  {| pid_uid := Z.shiftl 7 32 + 1000;
     uid_gid := Z.shiftl 7 32 + 1000;
     cpu := 1%nat;
     clock := fun n => 100 + Z.of_nat n |}.

(** A system whose two ring buffers hold as many unread records as fit. *)
Definition full : Harness.system :=
  {| Harness.map_operations :=
       MapOperations.with_ringbuf_events
         (replicate (Z.to_nat 8191) MapOperations.blank) MapOperations.init;
     Harness.ringbuf_throughput :=
       {| RingbufThroughput.ringbuf_events_data :=
            replicate (Z.to_nat 8191) RingbufThroughput.blank;
          RingbufThroughput.counters_val := replicate 10 0;
          RingbufThroughput.ktime_reads := 0 |};
     Harness.perfbuf_throughput := PerfbufThroughput.init |}.

(** A perf-buffer object in which user space has opened a buffer of two
    records for CPU 1, already full. *)
Definition perf_full : PerfbufThroughput.state :=
  {| PerfbufThroughput.perf_events_buf :=
       [None;
        Some {| pb_capacity := 2;
                pb_records := [PerfbufThroughput.zeroed; PerfbufThroughput.zeroed];
                pb_lost := 0 |}];
     PerfbufThroughput.counters_val := replicate 10 0;
     PerfbufThroughput.ktime_reads := 0 |}.

End Samples.

(** * Properties *)

Import Harness.

(** ** Symbolic execution of the programs *)

Ltac unfold_helpers :=
  unfold MapOperations.ringbuf_reserve, RingbufThroughput.ringbuf_reserve,
    MapOperations.map_lookup_elem, RingbufThroughput.map_lookup_elem,
    PerfbufThroughput.map_lookup_elem, PerfbufThroughput.perf_output in *.

Ltac exec1 :=
  cbn; unfold_helpers; cbn;
  match goal with
  | H : ?x = _ |- context [match ?x with _ => _ end] => rewrite H
  | H : ?x = _ |- context [if ?x then _ else _] => rewrite H
  | |- context [if ringbuf_has_room ?a ?b ?c then _ else _] =>
      destruct (ringbuf_has_room a b c) eqn:?
  | |- context [match array_index ?a ?b with _ => _ end] =>
      destruct (array_index a b) eqn:?
  | |- context [match @lookup ?K ?V ?M ?I ?k ?m with _ => _ end] =>
      destruct (@lookup K V M I k m) eqn:?
  end.

Ltac exec := do 8 (try exec1); cbn.

Ltac unfold_invoke :=
  unfold fire, MapOperations.invoke, RingbufThroughput.invoke,
    PerfbufThroughput.invoke in *.

(** ** Arithmetic of keys *)

Lemma land_255_range (x : Z) : 0 <= Z.land x 255 <= 255.
Proof.
  assert (H : Z.land x 255 = x mod 2 ^ 8) by (apply (Z.land_ones x 8); lia).
  rewrite H. pose proof (Z.mod_pos_bound x (2 ^ 8)). lia.
Qed.

Lemma wrap32_land_255 (x : Z) : wrap32 (Z.land x 255) = Z.land x 255.
Proof.
  unfold wrap32. pose proof (land_255_range x).
  apply Z.mod_small. lia.
Qed.

Lemma land_255_wrap32 (x : Z) : Z.land (wrap32 x) 255 = Z.land x 255.
Proof.
  unfold wrap32. rewrite <- (Z.land_ones x 32) by lia.
  rewrite <- Z.land_assoc. reflexivity.
Qed.

Lemma computed_key (ev : env) :
  wrap32 (Z.land (Z.shiftr (pid_uid ev) 32) 255) = MapOperations.key_of ev.
Proof.
  unfold MapOperations.key_of, MapOperations.reported_pid.
  rewrite wrap32_land_255, land_255_wrap32. reflexivity.
Qed.

Lemma key_of_range (ev : env) : 0 <= MapOperations.key_of ev <= 255.
Proof. apply land_255_range. Qed.

Lemma array_index_in_range (n k : Z) :
  0 <= k < n -> array_index n k = Some (Z.to_nat k).
Proof.
  intros H. unfold array_index.
  destruct (Z.leb_spec 0 k); destruct (Z.ltb_spec k n); try lia. reflexivity.
Qed.

Lemma array_index_Some (n k : Z) (i : nat) :
  array_index n k = Some i -> 0 <= k < n /\ i = Z.to_nat k.
Proof.
  unfold array_index.
  destruct (Z.leb_spec 0 k); destruct (Z.ltb_spec k n); cbn; intros Hi;
    inversion Hi; lia.
Qed.

(** ** Boundedness *)

Lemma bounded_steps {E S R} (handle : forall X, E X -> S -> X * S) (n : nat)
    (p : prog E R) (s : S) :
  bounded n p -> (steps handle p s <= n)%nat.
Proof.
  unfold steps. revert n s.
  induction p as [r | X e k IH]; intros n s Hb; cbn.
  - lia.
  - destruct n as [| n]; [destruct Hb |].
    specialize (IH (fst (handle X e s)) n (snd (handle X e s)) (Hb _)). lia.
Qed.

Ltac bounded_tac :=
  repeat (cbn; intros;
          match goal with
          | |- True => exact I
          | x : option _ |- _ => destruct x
          end).

Lemma map_bounded p ctx : bounded 8 (MapOperations.body p ctx).
Proof. destruct p; bounded_tac. Qed.

Lemma ringbuf_bounded p : bounded 8 (RingbufThroughput.body p).
Proof. destruct p; bounded_tac. Qed.

Lemma perfbuf_bounded p : bounded 8 (PerfbufThroughput.body p).
Proof. destruct p; bounded_tac. Qed.

Lemma producer_bounded pr : bounded_producer 8 pr.
Proof.
  destruct pr; cbn;
    [apply map_bounded | apply ringbuf_bounded | apply perfbuf_bounded].
Qed.

Lemma called_length pr ev sys : (length (called (fire pr ev sys)) <= 8)%nat.
Proof.
  destruct pr as [p ctx | p | p]; cbn;
    unfold MapOperations.helpers, RingbufThroughput.helpers,
      PerfbufThroughput.helpers; rewrite length_map.
  - apply (bounded_steps (MapOperations.handle ev)), map_bounded.
  - apply (bounded_steps (RingbufThroughput.handle ev)), ringbuf_bounded.
  - apply (bounded_steps (PerfbufThroughput.handle ev)), perfbuf_bounded.
Qed.

Lemma ret_0_or_1 pr ev sys : ret (fire pr ev sys) = 0 \/ ret (fire pr ev sys) = 1.
Proof.
  destruct pr as [p ctx | p | p]; destruct p; unfold_invoke; exec; auto.
Qed.

(** Claim C7: every producer callback, of every strategy, terminates on
    every input.  Its body is a finite tree of at most eight helper calls
    whatever the helpers return (it has no loop), and run from any state,
    for any task and context, it yields a result after at most eight calls
    and returns 0 or 1. *)
Theorem producers_terminate (pr : producer) (ev : env) (sys : system) :
  bounded_producer 8 pr /\
  exists r sys' hs rs,
    fire pr ev sys = {| ret := r; after := sys'; called := hs; reserved := rs |} /\
    (length hs <= 8)%nat /\ (r = 0 \/ r = 1).
Proof.
  split; [apply producer_bounded |].
  exists (ret (fire pr ev sys)), (after (fire pr ev sys)),
    (called (fire pr ev sys)), (reserved (fire pr ev sys)).
  split; [destruct (fire pr ev sys); reflexivity |].
  split; [apply called_length | apply ret_0_or_1].
Qed.

(** Claim C1, as the code has it: when the reservation of a producer
    callback returns no record, the callback returns 1 at once, the failed
    reservation being its last helper call; no event becomes visible to the
    consumers and no counter changes, so the drop is recorded nowhere but
    in the return value.  A throughput callback leaves the whole state as
    it was.  A map-benchmark callback has by then carried out the map
    operation it measures: its helper calls up to the reservation are
    those of the lookup, the update or the lookup and fetch-and-add; the
    measured map holds the result of that operation, and every other map
    is as it was. *)
Theorem reserve_failure_short_circuits (pr : producer) (ev : env) (sys : system) :
  reserve_failed (fire pr ev sys) = true ->
  ret (fire pr ev sys) = 1 /\
  last (called (fire pr ev sys)) = Some h_ringbuf_reserve /\
  visible (after (fire pr ev sys)) = visible sys /\
  counters (after (fire pr ev sys)) = counters sys /\
  match pr with
  | map_producer p _ =>
      let ms := map_operations sys in
      let ms' := map_operations (after (fire pr ev sys)) in
      let key := MapOperations.key_of ev in
      MapOperations.maps_agree_except (MapOperations.measured p) ms ms' /\
      match p with
      | MapOperations.prog_hash_map_lookup =>
          called (fire pr ev sys) =
            [h_get_current_pid_uid; h_ktime_get_ns; h_map_lookup_elem;
             h_ktime_get_ns; h_ringbuf_reserve]
      | MapOperations.prog_hash_map_update =>
          called (fire pr ev sys) =
            [h_get_current_pid_uid; h_ktime_get_ns; h_ktime_get_ns;
             h_map_update_elem; h_ktime_get_ns; h_ringbuf_reserve] /\
          MapOperations.hash_map_tab ms' =
            snd (hash_update (MapOperations.max_entries MapOperations.hash_map) key
                   (clock ev (MapOperations.ktime_reads ms)) BPF_ANY
                   (MapOperations.hash_map_tab ms))
      | MapOperations.prog_array_map_benchmark =>
          called (fire pr ev sys) =
            [h_get_current_pid_uid; h_ktime_get_ns; h_map_lookup_elem;
             h_sync_fetch_and_add; h_ktime_get_ns; h_ringbuf_reserve] /\
          MapOperations.array_map_val ms' =
            alter (fun v => wrap64 (v + 1)) (Z.to_nat key)
              (MapOperations.array_map_val ms)
      | MapOperations.prog_percpu_array_benchmark =>
          called (fire pr ev sys) =
            [h_get_current_pid_uid; h_ktime_get_ns; h_map_lookup_elem;
             h_sync_fetch_and_add; h_ktime_get_ns; h_ringbuf_reserve] /\
          MapOperations.percpu_array_val ms' =
            alter (pcpu_add (cpu ev) 1) (Z.to_nat key)
              (MapOperations.percpu_array_val ms)
      | MapOperations.prog_percpu_hash_benchmark =>
          match MapOperations.percpu_hash_tab ms !! key with
          | None =>
              called (fire pr ev sys) =
                [h_get_current_pid_uid; h_ktime_get_ns; h_map_lookup_elem;
                 h_map_update_elem; h_ktime_get_ns; h_ringbuf_reserve] /\
              MapOperations.percpu_hash_tab ms' =
                snd (hash_update (MapOperations.max_entries MapOperations.percpu_hash)
                       key (pcpu_init_value (cpu ev) 1) BPF_ANY
                       (MapOperations.percpu_hash_tab ms))
          | Some _ =>
              called (fire pr ev sys) =
                [h_get_current_pid_uid; h_ktime_get_ns; h_map_lookup_elem;
                 h_sync_fetch_and_add; h_ktime_get_ns; h_ringbuf_reserve] /\
              MapOperations.percpu_hash_tab ms' =
                alter (pcpu_add (cpu ev) 1) key (MapOperations.percpu_hash_tab ms)
          end
      end
  | _ => after (fire pr ev sys) = sys
  end.
Proof.
  destruct sys as [ms rs ps].
  pose proof (key_of_range ev) as Hk.
  destruct pr as [p ctx | p | p]; destruct p;
    unfold reserve_failed, visible, counters, MapOperations.maps_agree_except;
    unfold_invoke; cbn; unfold_helpers; rewrite ?computed_key;
    rewrite ?(array_index_in_range 256) by lia;
    exec; try discriminate; intros _;
    unfold array_fetch_add; cbn;
    repeat match goal with
           | |- _ /\ _ => split
           | H : ?x = _ |- context [match ?x with _ => _ end] => rewrite H
           end; auto.
Qed.

Lemma reserve_failure_short_circuits_witness :
  ret (fire (map_producer MapOperations.prog_hash_map_update Samples.sys_enter)
         Samples.task Samples.full) = 1 /\
  MapOperations.hash_map_tab
    (map_operations
       (after (fire (map_producer MapOperations.prog_hash_map_update
                       Samples.sys_enter)
                 Samples.task Samples.full))) !! 7 = Some 100.
Proof.
  destruct (reserve_failure_short_circuits
              (map_producer MapOperations.prog_hash_map_update Samples.sys_enter)
              Samples.task Samples.full) as (Hret & _ & _ & _ & _ & _ & Hmap).
  - vm_compute. reflexivity.
  - split; [exact Hret |].
    cbv zeta in Hmap. rewrite Hmap. vm_compute. reflexivity.
Defined.

Lemma drop_not_accounted :
  ~ drop_accounted
      (ringbuf_producer (RingbufThroughput.prog_kprobe_openat Samples.regs))
      Samples.task Samples.full /\
  ~ drop_accounted
      (map_producer MapOperations.prog_hash_map_update Samples.sys_enter)
      Samples.task Samples.full.
Proof.
  split; unfold drop_accounted; intros H.
  - destruct H as (_ & _ & Hc); [vm_compute; reflexivity |].
    apply Hc. vm_compute. reflexivity.
  - destruct H as (_ & Hm & _); [vm_compute; reflexivity |].
    apply (f_equal (fun m => m.1.1.1 !! 7)) in Hm.
    vm_compute in Hm. discriminate Hm.
Qed.

(** Claim C5: a perf-buffer callback returns 0 in every state, whether
    or not the buffer had room, and never reserves.  The kprobe and
    tracepoint callbacks call the same six helpers in every state, the
    write to the perf buffer among them exactly once, whatever the write
    returns; the raw-tracepoint callback writes nothing. *)
Theorem perf_write_unconditional (p : PerfbufThroughput.program) (ev : env)
    (s : PerfbufThroughput.state) :
  let o := PerfbufThroughput.invoke p ev s in
  retval o = 0 /\
  ~ In h_ringbuf_reserve (PerfbufThroughput.helpers (trace o)) /\
  match p with
  | PerfbufThroughput.prog_raw_tracepoint_perf _ =>
      PerfbufThroughput.outputs (trace o) = []
  | _ =>
      PerfbufThroughput.helpers (trace o) =
        [h_ktime_get_ns; h_get_current_uid_gid; h_get_smp_processor_id;
         h_perf_event_output; h_map_lookup_elem; h_sync_fetch_and_add] /\
      exists e rc, PerfbufThroughput.outputs (trace o) = [(e, rc)]
  end.
Proof.
  destruct p; unfold PerfbufThroughput.invoke; cbn; unfold_helpers;
    rewrite ?(array_index_in_range 10) by lia; cbn;
    (split; [reflexivity |]); (split; [intuition discriminate |]);
    try reflexivity; (split; [reflexivity | eauto]).
Qed.

(** Claim C6, as the code has it: an invocation publishes at most one
    event, and its event type is fixed by the hook of the program: kprobe
    programs write [EVENT_TYPE_KPROBE], and both the static-tracepoint and
    the raw-tracepoint programs write [EVENT_TYPE_TRACEPOINT]. *)
Theorem event_type_by_hook (pr : producer) (ev : env) (sys : system) :
  match hook_of pr with
  | Some h =>
      published_types pr ev sys = [] \/
      published_types pr ev sys = [event_type_of h]
  | None => published_types pr ev sys = []
  end /\
  event_type_of kprobe = Benchmark.EVENT_TYPE_KPROBE /\
  event_type_of tracepoint = Benchmark.EVENT_TYPE_TRACEPOINT /\
  event_type_of raw_tracepoint = Benchmark.EVENT_TYPE_TRACEPOINT.
Proof.
  split; [| repeat split].
  destruct pr as [p ctx | p | p]; [reflexivity | |]; destruct p;
    unfold published_types; unfold_invoke; exec; auto.
Qed.

Lemma raw_tracepoint_not_distinct :
  ~ raw_tracepoint_distinct Samples.task Harness.init
      Samples.sys_enter Samples.raw_sys_enter.
Proof.
  intros H. apply (H 2 2); vm_compute; auto.
Qed.

(** Claim C8: in every invocation of a map-benchmark callback the key of
    every map access is the reported pid masked with [0xFF]; it lies in
    [0, 255] and below [max_entries] of the map accessed, there is at
    least one such access, and no lookup in the array map or the per-CPU
    array returns [NULL]. *)
Theorem map_key_in_range (p : MapOperations.program) (ev : env)
    (ctx : trace_event_raw_sys_enter) (s : MapOperations.state) :
  let o := MapOperations.invoke p ev ctx s in
  let key := MapOperations.key_of ev in
  key = Z.land (MapOperations.reported_pid ev) 0xFF /\
  0 <= key <= 255 /\
  MapOperations.accesses (trace o) <> [] /\
  Forall (fun a => snd a = key /\ 0 <= snd a < MapOperations.max_entries (fst a))
    (MapOperations.accesses (trace o)) /\
  ~ In MapOperations.array_map (MapOperations.null_lookups (trace o)) /\
  ~ In MapOperations.percpu_array (MapOperations.null_lookups (trace o)).
Proof.
  pose proof (key_of_range ev) as Hk.
  split; [reflexivity |]. split; [exact Hk |].
  destruct p; unfold MapOperations.invoke; cbn; unfold_helpers;
    rewrite ?computed_key;
    rewrite ?(array_index_in_range 256) by lia;
    exec;
    (split; [discriminate |]);
    (split; [repeat constructor; cbn; lia |]);
    cbn; intuition discriminate.
Qed.

(** Claim C9: a throughput callback changes at most the counter slot of
    its hook (0 for kprobe, 1 for tracepoint, 2 for raw tracepoint): the
    counter arrays keep their length, every other slot keeps its value,
    and the slot itself is either left alone or incremented by one. *)
Theorem counter_slot_frame (pr : producer) (ev : env) (sys : system) (h : hook) :
  hook_of pr = Some h ->
  let before := counters sys in
  let after_ := counters (after (fire pr ev sys)) in
  (length (fst after_) = length (fst before) /\
   length (snd after_) = length (snd before)) /\
  (forall j : nat, j <> slot_of h ->
     fst after_ !! j = fst before !! j /\ snd after_ !! j = snd before !! j) /\
  (after_ = before \/
   after_ = (alter (fun v => wrap64 (v + 1)) (slot_of h) (fst before), snd before) \/
   after_ = (fst before, alter (fun v => wrap64 (v + 1)) (slot_of h) (snd before))).
Proof.
  intros Hh.
  destruct pr as [p ctx | p | p]; [discriminate Hh | |]; destruct p;
    injection Hh as <-; unfold counters; unfold_invoke; cbn; unfold_helpers;
    rewrite ?(array_index_in_range 10) by lia; exec;
    unfold array_fetch_add; cbn;
    (split; [rewrite ?length_alter; auto |]);
    (split; [intros j Hj; rewrite ?list_lookup_alter_ne by auto; auto | auto]).
Qed.

Lemma counter_slot_frame_witness :
  RingbufThroughput.counters_val
    (ringbuf_throughput
       (after (fire (ringbuf_producer
                       (RingbufThroughput.prog_tracepoint_openat Samples.sys_enter))
                 Samples.task Harness.init))) !! 0%nat = Some 0.
Proof.
  pose proof (counter_slot_frame
                (ringbuf_producer
                   (RingbufThroughput.prog_tracepoint_openat Samples.sys_enter))
                Samples.task Harness.init tracepoint eq_refl) as H.
  destruct H as (_ & H & _).
  destruct (H 0%nat) as [H0 _]; [cbn; lia |].
  exact H0.
Defined.

(** Claim C10: with a clock whose successive reads do not decrease, the
    records a map-benchmark callback submits are appended to the ring and
    each has [timestamp_start <= timestamp_end]. *)
Theorem latency_event_ordered (p : MapOperations.program) (ev : env)
    (ctx : trace_event_raw_sys_enter) (s : MapOperations.state) :
  (forall n, clock ev n <= clock ev (S n)) ->
  let o := MapOperations.invoke p ev ctx s in
  MapOperations.ringbuf_events_data (post o) =
    MapOperations.ringbuf_events_data s ++ MapOperations.submitted (trace o) /\
  Forall (fun e => MapOperations.timestamp_start e <= MapOperations.timestamp_end e)
    (MapOperations.submitted (trace o)).
Proof.
  intros Hmono.
  destruct p; unfold MapOperations.invoke; exec;
    (split; [rewrite ?app_nil_r; reflexivity |]);
    repeat constructor; cbn; apply Hmono.
Qed.

Lemma latency_event_ordered_witness :
  Forall (fun e => MapOperations.timestamp_start e <= MapOperations.timestamp_end e)
    (MapOperations.submitted
       (trace (MapOperations.invoke MapOperations.prog_hash_map_update
                 Samples.task Samples.sys_enter MapOperations.init))).
Proof.
  apply (latency_event_ordered MapOperations.prog_hash_map_update Samples.task).
  intros n. cbn. lia.
Defined.

Lemma size_bounded_keys {V} (m : gmap Z V) :
  (forall k v, m !! k = Some v -> 0 <= k <= 255) -> (size m <= 256)%nat.
Proof.
  intros Hk.
  rewrite <- (size_dom (D := gset Z)).
  assert (Hsub : dom m ⊆ (list_to_set (seqZ 0 256) : gset Z)).
  { intros k Hin. apply elem_of_dom in Hin as [v Hv].
    apply elem_of_list_to_set, elem_of_seqZ. specialize (Hk k v Hv). lia. }
  apply subseteq_size in Hsub.
  rewrite size_list_to_set in Hsub by apply NoDup_seqZ.
  rewrite length_seqZ in Hsub. lia.
Qed.

Lemma hash_update_any_absent {V} (n k : Z) (v : V) (tab : gmap Z V) :
  tab !! k = None -> Z.of_nat (size tab) < n ->
  hash_update n k v BPF_ANY tab = (0, <[k := v]> tab).
Proof.
  intros Hk Hn. unfold hash_update. cbn. rewrite Hk.
  destruct (Z.ltb_spec (Z.of_nat (size tab)) n); [reflexivity | lia].
Qed.

Lemma hash_update_any_present {V} (n k : Z) (v x : V) (tab : gmap Z V) :
  tab !! k = Some x -> hash_update n k v BPF_ANY tab = (0, <[k := v]> tab).
Proof. intros Hk. unfold hash_update. cbn. rewrite Hk. reflexivity. Qed.

Lemma hash_update_cases {V} (n k : Z) (v : V) (f : Z) (tab : gmap Z V) :
  snd (hash_update n k v f tab) = tab \/
  snd (hash_update n k v f tab) = <[k := v]> tab.
Proof.
  unfold hash_update.
  repeat match goal with
         | |- context [if ?b then _ else _] => destruct b
         | |- context [match ?x with _ => _ end] => destruct x
         end; cbn; auto.
Qed.

Lemma has_room_length {T} (l : list T) :
  ringbuf_has_room (256 * 1024) 24 l = true -> Z.of_nat (length l) + 1 <= 8191.
Proof.
  unfold ringbuf_has_room.
  change (ringbuf_record_len 24) with 32.
  intros H. apply Z.leb_le in H. lia.
Qed.

Lemma no_room_length {T} (l : list T) :
  ringbuf_has_room (256 * 1024) 24 l = false -> 8191 <= Z.of_nat (length l).
Proof.
  unfold ringbuf_has_room.
  change (ringbuf_record_len 24) with 32.
  intros H. apply Z.leb_gt in H. lia.
Qed.

Lemma wrap64_range (z : Z) : 0 <= wrap64 z <= U64_MAX.
Proof.
  unfold wrap64, U64_MAX. pose proof (Z.mod_pos_bound z (2 ^ 64)). lia.
Qed.

(** ** The maps of map_operations.c *)

Section MapOperationsInvariant.
Import MapOperations.

Lemma pcpu_set_range c v pv :
  0 <= v <= U64_MAX -> (forall c' : nat, 0 <= pv c' <= U64_MAX) ->
  forall c' : nat, 0 <= pcpu_set c v pv c' <= U64_MAX.
Proof. intros Hv Hpv c'. unfold pcpu_set. destruct (Nat.eqb c' c); auto. Qed.

Lemma pcpu_add_range c n pv :
  (forall c' : nat, 0 <= pv c' <= U64_MAX) ->
  forall c' : nat, 0 <= pcpu_add c n pv c' <= U64_MAX.
Proof. intros Hpv. apply pcpu_set_range; [apply wrap64_range | exact Hpv]. Qed.

Lemma init_well_formed : well_formed init.
Proof.
  unfold well_formed.
  cbv [init hash_map_tab array_map_val percpu_array_val percpu_hash_tab
       ringbuf_events_data].
  split; [intros k v H; rewrite lookup_empty in H; discriminate |].
  split; [split; [apply length_replicate
                 | apply Forall_replicate; unfold U64_MAX; lia] |].
  split; [split; [apply length_replicate
                 | apply Forall_replicate; unfold U64_MAX; intros; lia] |].
  split; [intros k v H; rewrite lookup_empty in H; discriminate | cbn; lia].
Qed.

Lemma hash_update_keys {V} (P : Z -> V -> Prop) n key (v : V) f tab :
  (forall k x, tab !! k = Some x -> P k x) -> P key v ->
  forall k x, snd (hash_update n key v f tab) !! k = Some x -> P k x.
Proof.
  intros Ht Hk k x.
  destruct (hash_update_cases n key v f tab) as [-> | ->]; [apply Ht |].
  rewrite lookup_insert_Some. intros [[<- <-] | [_ Hx]]; auto.
Qed.

Lemma submit_fits (l : list latency_event) (e : latency_event) :
  ringbuf_has_room (ringbuf_max_entries ringbuf_events) sizeof_latency_event l = true ->
  Z.of_nat (length (l ++ [e])) <= 8191.
Proof.
  intros H. apply has_room_length in H.
  rewrite length_app. cbn [length]. lia.
Qed.

Lemma invoke_well_formed p ev ctx s :
  well_formed s -> well_formed (post (invoke p ev ctx s)).
Proof.
  intros (Hh & (Hal & Har) & (Hpl & Hpr) & Hph & Hr).
  pose proof (key_of_range ev) as Hk.
  destruct p; unfold invoke; cbn; unfold_helpers;
    rewrite ?computed_key; rewrite ?(array_index_in_range 256) by lia; exec.
  all: unfold well_formed, array_fetch_add; cbn.
  all: repeat match goal with
         | |- _ /\ _ => split
         | |- length (alter _ _ _) = _ => rewrite length_alter; assumption
         | |- Z.of_nat (length (_ ++ [_])) <= _ => apply submit_fits; assumption
         | |- Forall _ (alter (fun v => wrap64 _) _ _) =>
             apply Forall_alter; [assumption | intros; apply wrap64_range]
         | |- Forall _ (alter (pcpu_add _ _) _ _) =>
             apply Forall_alter; [assumption | intros; apply pcpu_add_range; assumption]
         | |- forall k v, snd (hash_update _ _ _ _ (hash_map_tab _)) !! k = Some v -> _ =>
             apply (hash_update_keys (fun k _ => 0 <= k <= 255)); assumption
         | |- forall k pv, snd (hash_update _ _ _ _ (percpu_hash_tab _)) !! k = Some pv -> _ =>
             apply (hash_update_keys
                      (fun k pv => 0 <= k <= 255 /\ forall c : nat, 0 <= pv c <= U64_MAX));
             [assumption | split; [assumption |]; apply pcpu_set_range;
                           [unfold U64_MAX; lia | intros; unfold U64_MAX; lia]]
         | |- forall k pv, alter _ _ (percpu_hash_tab _) !! k = Some pv -> _ =>
             let H := fresh in
             intros ? ? H; apply lookup_alter_Some in H;
             destruct H as [[<- (? & H & ->)] | [_ H]];
             [split; [assumption | apply pcpu_add_range; eapply Hph; eassumption]
             | eapply Hph; eassumption]
         | |- _ => assumption
         end.
Qed.

Lemma reachable_well_formed s : reachable s -> well_formed s.
Proof.
  induction 1 as [| p ev ctx s _ IH | n s _ IH].
  - apply init_well_formed.
  - apply invoke_well_formed, IH.
  - destruct IH as (Hh & Ha & Hp & Hph & Hr).
    unfold well_formed; cbn.
    split; [exact Hh |]. split; [exact Ha |]. split; [exact Hp |].
    split; [exact Hph |]. rewrite length_drop. lia.
Qed.

(** Claim C2: in every reachable state, an invocation of the per-CPU hash
    callback with the key absent stores the value 1 for the key on the
    executing CPU (no latency sample enters the value); with the key
    present it adds exactly one, in [__u64] arithmetic, to the value of
    the executing CPU and leaves the values of the other CPUs.  No other
    key is touched. *)
Theorem percpu_hash_first_touch (ev : env) (ctx : trace_event_raw_sys_enter)
    (s : state) :
  reachable s ->
  let key := key_of ev in
  let s' := post (invoke prog_percpu_hash_benchmark ev ctx s) in
  match percpu_hash_tab s !! key with
  | None =>
      percpu_hash_tab s' !! key = Some (pcpu_init_value (cpu ev) 1) /\
      pcpu_init_value (cpu ev) 1 (cpu ev) = 1
  | Some pv =>
      exists pv',
        percpu_hash_tab s' !! key = Some pv' /\
        pv' (cpu ev) = wrap64 (pv (cpu ev) + 1) /\
        (pv (cpu ev) < U64_MAX -> pv' (cpu ev) = pv (cpu ev) + 1) /\
        (forall c, c <> cpu ev -> pv' c = pv c)
  end /\
  (forall k, k <> key -> percpu_hash_tab s' !! k = percpu_hash_tab s !! k).
Proof.
  intros Hreach key s'. subst key s'.
  apply reachable_well_formed in Hreach.
  destruct Hreach as (_ & _ & _ & Hph & _).
  pose proof (size_bounded_keys (percpu_hash_tab s)
                (fun k v H => proj1 (Hph k v H))) as Hsize.
  unfold invoke; cbn; unfold_helpers; rewrite ?computed_key.
  destruct (percpu_hash_tab s !! key_of ev) as [pv |] eqn:Hl; cbn.
  - exec.
    all: split; [exists (pcpu_add (cpu ev) 1 pv) | intros k Hk; apply lookup_alter_ne; auto].
    all: rewrite lookup_alter_eq, Hl; cbn.
    all: unfold pcpu_add, pcpu_set; rewrite Nat.eqb_refl.
    all: repeat split; auto.
    all: try (intros Hlt; unfold wrap64; apply Z.mod_small;
              destruct (Hph _ _ Hl) as [_ Hr]; specialize (Hr (cpu ev));
              unfold U64_MAX in *; lia).
    all: intros c Hc; destruct (Nat.eqb_spec c (cpu ev)); [contradiction | reflexivity].
  - rewrite (hash_update_any_absent 1024) by (auto; lia). exec.
    all: split; [split; [apply lookup_insert_eq
                        | unfold pcpu_init_value, pcpu_set; rewrite Nat.eqb_refl; reflexivity]
                | intros k Hk; apply lookup_insert_ne; auto].
Qed.

Lemma percpu_hash_first_touch_witness :
  percpu_hash_tab
    (post (invoke prog_percpu_hash_benchmark Samples.task Samples.sys_enter init))
    !! key_of Samples.task = Some (pcpu_init_value (cpu Samples.task) 1).
Proof.
  pose proof (percpu_hash_first_touch Samples.task Samples.sys_enter init
                reachable_init) as H.
  cbv zeta in H. destruct H as [H _].
  change (percpu_hash_tab init !! key_of Samples.task) with (@None (nat -> Z)) in H.
  exact (proj1 H).
Defined.

End MapOperationsInvariant.

(** ** Statistics records *)

Section StatsRecords.
Import Benchmark Aggregator.

Lemma wrap64_idem_add (a b : Z) : wrap64 (wrap64 a + b) = wrap64 (a + b).
Proof. unfold wrap64. apply Zplus_mod_idemp_l. Qed.

Lemma total_cons (l : Z) (ls : list Z) : total (l :: ls) = l + total ls.
Proof. reflexivity. Qed.

Lemma fold_merge_count (ls : list Z) (r : stats) :
  count (fold_left merge ls r) =
  match ls with [] => count r | _ => wrap64 (count r + Z.of_nat (length ls)) end.
Proof.
  revert r. induction ls as [| l ls IH]; intros r; [reflexivity |].
  cbn [fold_left]. rewrite IH. destruct ls as [| l' ls].
  - cbn. reflexivity.
  - cbn [merge count]. rewrite wrap64_idem_add. f_equal. cbn [length]. lia.
Qed.

Lemma fold_merge_sum (ls : list Z) (r : stats) :
  sum_latency (fold_left merge ls r) =
  match ls with [] => sum_latency r | _ => wrap64 (sum_latency r + total ls) end.
Proof.
  revert r. induction ls as [| l ls IH]; intros r; [reflexivity |].
  cbn [fold_left]. rewrite IH. destruct ls as [| l' ls].
  - cbn. f_equal. lia.
  - cbn [merge sum_latency]. rewrite wrap64_idem_add. f_equal.
    rewrite !total_cons. lia.
Qed.

Lemma fold_merge_min (ls : list Z) (r : stats) :
  let m := min_latency (fold_left merge ls r) in
  m <= min_latency r /\ Forall (fun l => m <= l) ls /\
  (m = min_latency r \/ In m ls).
Proof.
  revert r. induction ls as [| l ls IH]; intros r; cbn [fold_left].
  - cbn. repeat split; auto; lia.
  - destruct (IH (merge r l)) as (H1 & H2 & H3). cbn [merge min_latency] in *.
    split; [lia |]. split.
    + constructor; [lia | exact H2].
    + destruct H3 as [H3 | H3]; [| right; right; exact H3].
      destruct (Z.min_spec (min_latency r) l) as [[_ Hm] | [_ Hm]];
        rewrite Hm in H3; [left | right; left]; auto.
Qed.

Lemma fold_merge_max (ls : list Z) (r : stats) :
  let m := max_latency (fold_left merge ls r) in
  max_latency r <= m /\ Forall (fun l => l <= m) ls /\
  (m = max_latency r \/ In m ls).
Proof.
  revert r. induction ls as [| l ls IH]; intros r; cbn [fold_left].
  - cbn. repeat split; auto; lia.
  - destruct (IH (merge r l)) as (H1 & H2 & H3). cbn [merge max_latency] in *.
    split; [lia |]. split.
    + constructor; [lia | exact H2].
    + destruct H3 as [H3 | H3]; [| right; right; exact H3].
      destruct (Z.max_spec (max_latency r) l) as [[_ Hm] | [_ Hm]];
        rewrite Hm in H3; [right; left | left]; auto.
Qed.

(** Claim C3: after merging latencies [l_1..l_N], each a [__u64] value,
    into a fresh record, [count] is [N] and [sum_latency] is the sum of
    the [l_i], both as [__u64] values (exactly so while they do not exceed
    [U64_MAX]); and for [N >= 1], [min_latency] and [max_latency] are the
    least and the greatest of the [l_i]. *)
Theorem merge_sequence_totals (ls : list Z) :
  Forall (fun l => 0 <= l <= U64_MAX) ls ->
  let r := merge_all ls in
  let n := Z.of_nat (length ls) in
  count r = wrap64 n /\ (n <= U64_MAX -> count r = n) /\
  sum_latency r = wrap64 (total ls) /\
  (total ls <= U64_MAX -> sum_latency r = total ls) /\
  (ls <> [] ->
   In (min_latency r) ls /\ Forall (fun l => min_latency r <= l) ls /\
   In (max_latency r) ls /\ Forall (fun l => l <= max_latency r) ls).
Proof.
  intros Hrange r n. subst r n. unfold merge_all.
  assert (Htot : 0 <= total ls).
  { clear -Hrange. induction Hrange as [| l ls Hl _ IH]; [cbn; lia |].
    rewrite total_cons. lia. }
  assert (Hc : count (fold_left merge ls fresh) = wrap64 (Z.of_nat (length ls))).
  { rewrite fold_merge_count. destruct ls; reflexivity. }
  assert (Hs : sum_latency (fold_left merge ls fresh) = wrap64 (total ls)).
  { rewrite fold_merge_sum. destruct ls; reflexivity. }
  split; [exact Hc |].
  split; [intros Hn; rewrite Hc; apply Z.mod_small; unfold U64_MAX in Hn; lia |].
  split; [exact Hs |].
  split; [intros Hn; rewrite Hs; apply Z.mod_small; unfold U64_MAX in Hn; lia |].
  intros Hne.
  destruct (fold_merge_min ls fresh) as (_ & Hmin & Hmin').
  destruct (fold_merge_max ls fresh) as (_ & Hmax & Hmax').
  cbv zeta in *. cbn [fresh min_latency max_latency] in Hmin', Hmax'.
  destruct ls as [| l ls]; [contradiction |].
  repeat split; auto.
  - destruct Hmin' as [He | Hin]; [| exact Hin].
    apply Forall_inv in Hrange, Hmin. rewrite He in *.
    left. lia.
  - destruct Hmax' as [He | Hin]; [| exact Hin].
    apply Forall_inv in Hrange, Hmax. rewrite He in *.
    left. lia.
Qed.

Lemma merge_sequence_totals_witness :
  count (merge_all [30; 10; 20]) = 3 /\
  sum_latency (merge_all [30; 10; 20]) = 60 /\
  In (min_latency (merge_all [30; 10; 20])) [30; 10; 20] /\
  In (max_latency (merge_all [30; 10; 20])) [30; 10; 20].
Proof.
  assert (Hr : Forall (fun l => 0 <= l <= U64_MAX) [30; 10; 20]).
  { repeat constructor; vm_compute; discriminate. }
  destruct (merge_sequence_totals [30; 10; 20] Hr) as (_ & Hc & _ & Hs & Hm).
  split; [apply Hc; vm_compute; discriminate |].
  split; [apply Hs; vm_compute; discriminate |].
  destruct Hm as (Hmin & _ & Hmax & _); [discriminate |].
  split; assumption.
Defined.

(** Claim C4: on a keyed aggregator with [max_entries = 4], one merge of
    latency 10 for each of the keys 0, 1, 2, 3, 4 leaves keys 0 to 3
    present with [count = 1] and [sum = min = max = 10]; the merge for key
    4 fails with [CapacityExceeded], key 4 is absent, and
    [dropped_updates] is 1. *)
Theorem keyed_aggregator_capacity_scenario :
  let out := merge_keys [(0, 10); (1, 10); (2, 10); (3, 10); (4, 10)] (create 4) in
  let one := {| count := 1; sum_latency := 10; min_latency := 10; max_latency := 10 |} in
  fst out = [inr tt; inr tt; inr tt; inr tt; inl CapacityExceeded] /\
  records (snd out) !! 0 = Some one /\
  records (snd out) !! 1 = Some one /\
  records (snd out) !! 2 = Some one /\
  records (snd out) !! 3 = Some one /\
  records (snd out) !! 4 = None /\
  dropped_updates (snd out) = 1.
Proof. vm_compute. repeat split; reflexivity. Qed.

End StatsRecords.

(** ** Further properties of map_operations.c *)

Section MapOperationsPrograms.
Import MapOperations Workload.

(** [hash_map_lookup] only reads: whatever the state, it leaves the four
    keyed maps as they were and reads the clock twice; the lookup returns
    [NULL] exactly when the key is absent.  Hit or miss, the program then
    makes its one reservation, whose outcome depends on the room in the
    ring alone: with room it submits one record and returns 0, without
    room it submits nothing and returns 1. *)
Theorem hash_map_lookup_reads_only (ev : env) (ctx : trace_event_raw_sys_enter)
    (s : state) :
  let o := invoke prog_hash_map_lookup ev ctx s in
  let room :=
    ringbuf_has_room (ringbuf_max_entries ringbuf_events) sizeof_latency_event
      (ringbuf_events_data s) in
  hash_map_tab (post o) = hash_map_tab s /\
  array_map_val (post o) = array_map_val s /\
  percpu_array_val (post o) = percpu_array_val s /\
  percpu_hash_tab (post o) = percpu_hash_tab s /\
  ktime_reads (post o) = S (S (ktime_reads s)) /\
  null_lookups (trace o) =
    match hash_map_tab s !! key_of ev with
    | Some _ => []
    | None => [hash_map]
    end /\
  reserves (trace o) = [room] /\
  ringbuf_events_data (post o) = ringbuf_events_data s ++ submitted (trace o) /\
  length (submitted (trace o)) = (if room then 1 else 0)%nat /\
  retval o = (if room then 0 else 1).
Proof.
  unfold invoke; cbn; unfold_helpers; rewrite ?computed_key; exec;
    rewrite ?app_nil_r; repeat split; reflexivity.
Qed.

(** What a map-benchmark program records.  If the ring has room it
    returns 0 and appends one record at the end of the ring: the start and
    end timestamps are two successive clock reads, the operation code is
    that of the program, and the pid is the upper word of the identity
    word truncated to 32 bits.  Otherwise it returns 1 and the ring is
    unchanged. *)
Theorem latency_record_contents (p : program) (ev : env)
    (ctx : trace_event_raw_sys_enter) (s : state) :
  let o := invoke p ev ctx s in
  let t0 := (ktime_reads s + reads_before_start p)%nat in
  if ringbuf_has_room (ringbuf_max_entries ringbuf_events) sizeof_latency_event
       (ringbuf_events_data s)
  then retval o = 0 /\
       ringbuf_events_data (post o) =
         ringbuf_events_data s ++
           [{| timestamp_start := clock ev t0;
               timestamp_end := clock ev (S t0);
               operation := operation_of p;
               pid := reported_pid ev |}]
  else retval o = 1 /\ ringbuf_events_data (post o) = ringbuf_events_data s.
Proof.
  destruct p; unfold invoke, reported_pid; cbn; rewrite ?Nat.add_0_r, ?Nat.add_1_r;
    exec; split; reflexivity.
Qed.

(** On every path, a map-benchmark program modifies no keyed map other
    than the one whose operation it measures. *)
Theorem program_touches_measured_map_only (p : program) (ev : env)
    (ctx : trace_event_raw_sys_enter) (s : state) :
  maps_agree_except (measured p) s (post (invoke p ev ctx s)).
Proof.
  destruct p; unfold invoke, maps_agree_except; exec; repeat split; auto.
Qed.

(** In every reachable state [hash_map_update] succeeds in storing: the
    hash map afterwards maps the key to the first clock value read, all
    other keys keep their values, and the clock is read three times. *)
Theorem hash_map_update_stores_value (ev : env) (ctx : trace_event_raw_sys_enter)
    (s : state) :
  reachable s ->
  let o := invoke prog_hash_map_update ev ctx s in
  hash_map_tab (post o) =
    <[key_of ev := clock ev (ktime_reads s)]> (hash_map_tab s) /\
  ktime_reads (post o) = S (S (S (ktime_reads s))).
Proof.
  intros Hreach. apply reachable_well_formed in Hreach.
  destruct Hreach as (Hh & _).
  pose proof (size_bounded_keys (hash_map_tab s) Hh) as Hsize.
  assert (Hup : hash_update 10240 (key_of ev) (clock ev (ktime_reads s)) BPF_ANY
                  (hash_map_tab s)
                = (0, <[key_of ev := clock ev (ktime_reads s)]> (hash_map_tab s))).
  { destruct (hash_map_tab s !! key_of ev) eqn:Hl.
    - eapply hash_update_any_present; eassumption.
    - apply hash_update_any_absent; [assumption | lia]. }
  unfold invoke; cbn; unfold_helpers; rewrite ?computed_key, Hup; exec;
    split; reflexivity.
Qed.

Lemma hash_map_update_stores_value_witness :
  hash_map_tab
    (post (invoke prog_hash_map_update Samples.task Samples.sys_enter init))
    !! 7 = Some 100.
Proof.
  destruct (hash_map_update_stores_value Samples.task Samples.sys_enter init
              reachable_init) as [H _].
  rewrite H. vm_compute. reflexivity.
Defined.

(** In every reachable state the key's slot exists in both arrays, and
    the array programs add one to it in [__u64] arithmetic: the array map
    program to the shared value, the per-CPU program to the copy of the
    executing CPU only.  All other slots keep their values. *)
Theorem array_programs_increment (ev : env) (ctx : trace_event_raw_sys_enter)
    (s : state) :
  reachable s ->
  let i := Z.to_nat (key_of ev) in
  (exists v,
     array_map_val s !! i = Some v /\
     array_map_val (post (invoke prog_array_map_benchmark ev ctx s)) =
       <[i := wrap64 (v + 1)]> (array_map_val s) /\
     (v < U64_MAX -> wrap64 (v + 1) = v + 1)) /\
  (exists pv,
     percpu_array_val s !! i = Some pv /\
     percpu_array_val (post (invoke prog_percpu_array_benchmark ev ctx s)) =
       <[i := pcpu_set (cpu ev) (wrap64 (pv (cpu ev) + 1)) pv]> (percpu_array_val s) /\
     (pv (cpu ev) < U64_MAX -> wrap64 (pv (cpu ev) + 1) = pv (cpu ev) + 1)).
Proof.
  intros Hreach i. subst i. apply reachable_well_formed in Hreach.
  destruct Hreach as (_ & (Hal & Har) & (Hpl & Hpr) & _).
  pose proof (key_of_range ev) as Hk.
  assert (Hi : (Z.to_nat (key_of ev) < 256)%nat) by lia.
  split.
  - destruct (lookup_lt_is_Some_2 (array_map_val s) (Z.to_nat (key_of ev)))
      as [v Hv]; [lia |].
    exists v. split; [exact Hv |]. split.
    + unfold invoke; cbn; unfold_helpers; rewrite ?computed_key;
        rewrite ?(array_index_in_range 256) by lia; exec;
        unfold array_fetch_add; cbn;
        apply list_eq; intros j; rewrite list_lookup_alter, list_lookup_insert by lia;
        repeat case_decide; subst; try rewrite Hv; try reflexivity; try lia; intuition.
    + intros Hlt. unfold wrap64. apply Z.mod_small.
      rewrite Forall_forall in Har.
      specialize (Har v (proj2 (list_elem_of_lookup _ _) (ex_intro _ _ Hv))).
      unfold U64_MAX in *. lia.
  - destruct (lookup_lt_is_Some_2 (percpu_array_val s) (Z.to_nat (key_of ev)))
      as [pv Hv]; [lia |].
    exists pv. split; [exact Hv |]. split.
    + unfold invoke; cbn; unfold_helpers; rewrite ?computed_key;
        rewrite ?(array_index_in_range 256) by lia; exec;
        apply list_eq; intros j; rewrite list_lookup_alter, list_lookup_insert by lia;
        repeat case_decide; subst; try rewrite Hv; try reflexivity; try lia; intuition.
    + intros Hlt. unfold wrap64. apply Z.mod_small.
      rewrite Forall_forall in Hpr.
      specialize (Hpr pv (proj2 (list_elem_of_lookup _ _) (ex_intro _ _ Hv)) (cpu ev)).
      unfold U64_MAX in *. lia.
Qed.

Lemma array_programs_increment_witness :
  array_map_val
    (post (invoke prog_array_map_benchmark Samples.task Samples.sys_enter init))
    !! 7%nat = Some 1.
Proof.
  destruct (array_programs_increment Samples.task Samples.sys_enter init
              reachable_init) as [(v & Hv & Hpost & _) _].
  rewrite Hpost.
  change (Z.to_nat (key_of Samples.task)) with 7%nat in *.
  rewrite list_lookup_insert_eq by (unfold init; cbn [array_map_val]; rewrite length_replicate; lia).
  assert (v = 0) as ->.
  { assert (H0 : array_map_val init !! 7%nat = Some 0) by reflexivity.
    congruence. }
  reflexivity.
Defined.

(** Bounds the object keeps: in every reachable state each hash map
    holds at most 256 keys, the arrays have their 256 entries, and the
    unread records fit the ring buffer. *)
Theorem reachable_maps_bounded (s : state) :
  reachable s ->
  (size (hash_map_tab s) <= 256)%nat /\
  (size (percpu_hash_tab s) <= 256)%nat /\
  length (array_map_val s) = 256%nat /\
  length (percpu_array_val s) = 256%nat /\
  Z.of_nat (length (ringbuf_events_data s)) * ringbuf_record_len sizeof_latency_event
    <= ringbuf_max_entries ringbuf_events - 1.
Proof.
  intros Hreach. apply reachable_well_formed in Hreach.
  destruct Hreach as (Hh & (Hal & _) & (Hpl & _) & Hph & Hr).
  split; [apply size_bounded_keys; exact Hh |].
  split; [apply size_bounded_keys; intros k v Hv; apply (Hph k v Hv) |].
  split; [exact Hal |]. split; [exact Hpl |].
  change (ringbuf_record_len sizeof_latency_event) with 32.
  change (ringbuf_max_entries ringbuf_events) with 262144. lia.
Qed.

Lemma reachable_maps_bounded_witness :
  (size (hash_map_tab
           (post (invoke prog_hash_map_update Samples.task Samples.sys_enter init)))
   <= 256)%nat.
Proof.
  apply reachable_maps_bounded.
  apply reachable_invoke, reachable_init.
Defined.
End MapOperationsPrograms.

(** ** Further properties of ringbuf_throughput.c *)

Ltac resolve_counter_slot :=
  cbn; unfold_helpers; cbn; rewrite ?(array_index_in_range 10) by lia.

Ltac exec_counters :=
  do 8 (try (resolve_counter_slot; exec1)); resolve_counter_slot; cbn.

Section RingbufPrograms.
Import RingbufThroughput Workload.

(** What a ring-buffer program does.  If the ring has room it returns 0,
    appends one event (clock value, upper word of the uid/gid word, CPU,
    event type, data word) at the end of the ring, adds one to its counter
    slot and reads the clock once.  Otherwise it returns 1 and the state
    is unchanged. *)
Theorem ringbuf_event_contents (p : program) (ev : env) (s : state) :
  let o := invoke p ev s in
  if ringbuf_has_room (ringbuf_max_entries ringbuf_events) Benchmark.sizeof_event
       (ringbuf_events_data s)
  then retval o = 0 /\
       ringbuf_events_data (post o) =
         ringbuf_events_data s ++ [event_of p ev (clock ev (ktime_reads s))] /\
       counters_val (post o) =
         alter (fun v => wrap64 (v + 1)) (ringbuf_slot p) (counters_val s) /\
       ktime_reads (post o) = S (ktime_reads s)
  else retval o = 1 /\ post o = s.
Proof.
  destruct s as [rb cs kt].
  destruct p; unfold invoke, event_of; exec_counters;
    repeat split; reflexivity.
Qed.

Lemma replay_counts (j : nat) (w : list step) (s : state) (v : Z) :
  counters_val s !! j = Some v -> 0 <= v <= U64_MAX ->
  counters_val (replay w s) !! j = Some (wrap64 (v + submissions j w s)).
Proof.
  revert s v. induction w as [| st w IH]; intros s v Hv Hr.
  - cbn. rewrite Z.add_0_r. unfold wrap64. rewrite Z.mod_small; [exact Hv |].
    unfold U64_MAX in Hr. lia.
  - cbn [replay submissions].
    destruct st as [p ev | n].
    + pose proof (ringbuf_event_contents p ev s) as Hc. cbv zeta in Hc.
      cbn [apply_step submitted_by].
      assert (Hsub : submitted (trace (invoke p ev s)) =
                     if ringbuf_has_room (ringbuf_max_entries ringbuf_events)
                          Benchmark.sizeof_event (ringbuf_events_data s)
                     then [event_of p ev (clock ev (ktime_reads s))] else []).
      { destruct p; unfold invoke, event_of; exec_counters; reflexivity. }
      rewrite Hsub.
      destruct (ringbuf_has_room _ _ _).
      * destruct Hc as (_ & _ & Hcnt & _).
        destruct (Nat.eqb_spec (ringbuf_slot p) j) as [He | Hne]; [rewrite He in Hcnt |].
        -- rewrite (IH _ (wrap64 (v + 1))).
           ++ f_equal. cbn [length]. rewrite wrap64_idem_add. f_equal. lia.
           ++ rewrite Hcnt, list_lookup_alter_eq, Hv. reflexivity.
           ++ apply wrap64_range.
        -- rewrite (IH _ v); [f_equal; f_equal; lia | | exact Hr].
           rewrite Hcnt, list_lookup_alter_ne by exact Hne. exact Hv.
      * destruct Hc as (_ & ->).
        rewrite (IH _ v Hv Hr). f_equal. f_equal.
        destruct (Nat.eqb (ringbuf_slot p) j); cbn; lia.
    + cbn [apply_step submitted_by]. rewrite Z.add_0_l.
      apply IH; assumption.
Qed.

(** Over any run of the ring-buffer object from its loaded state, with
    the consumer reading in between, counter slot [j] holds the number of
    events submitted by the programs that name slot [j], as a [__u64]
    value; the slots above 2 stay zero. *)
Theorem counters_count_submissions (w : list step) (j : nat) :
  (j < 10)%nat ->
  counters_val (replay w init) !! j = Some (wrap64 (submissions j w init)) /\
  ((2 < j)%nat -> counters_val (replay w init) !! j = Some 0).
Proof.
  intros Hj.
  assert (H0 : counters_val init !! j = Some 0).
  { unfold init; cbn [counters_val]. apply lookup_replicate_2. lia. }
  pose proof (replay_counts j w init 0 H0 ltac:(unfold U64_MAX; lia)) as H.
  rewrite Z.add_0_l in H. split; [exact H |].
  intros Hj2. rewrite H.
  assert (Hz : forall s, submissions j w s = 0).
  { clear -Hj2. induction w as [| st w IH]; intros s; [reflexivity |].
    cbn [submissions]. rewrite IH.
    destruct st as [p ev | n]; cbn [submitted_by]; [| reflexivity].
    destruct (Nat.eqb_spec (ringbuf_slot p) j) as [He | _]; [| reflexivity].
    destruct p; cbn [ringbuf_slot] in He; lia. }
  rewrite Hz. reflexivity.
Qed.
End RingbufPrograms.

Section RingbufSequences.
Import RingbufThroughput Workload.

Lemma counters_count_submissions_witness :
  counters_val
    (replay [Invoke (prog_kprobe_openat Samples.regs) Samples.task;
             Consume 1;
             Invoke (prog_kprobe_openat Samples.regs) Samples.task;
             Invoke (prog_raw_tracepoint_handler Samples.raw_sys_enter) Samples.task]
       init) !! 0%nat = Some 2.
Proof.
  destruct (counters_count_submissions
              [Invoke (prog_kprobe_openat Samples.regs) Samples.task;
               Consume 1;
               Invoke (prog_kprobe_openat Samples.regs) Samples.task;
               Invoke (prog_raw_tracepoint_handler Samples.raw_sys_enter) Samples.task]
              0%nat) as [H _]; [lia |].
  rewrite H. vm_compute. reflexivity.
Defined.
End RingbufSequences.

(** ** Further properties of perfbuf_throughput.c *)

Section PerfbufPrograms.
Import PerfbufThroughput Workload.

Lemma current_cpu_index :
  (Z.land BPF_F_CURRENT_CPU BPF_F_INDEX_MASK =? BPF_F_CURRENT_CPU) = true.
Proof. reflexivity. Qed.

Lemma perf_event_output_other_cpu {T} (n : Z) (c c' : nat) (e : T)
    (pe : list (option (perf_buffer T))) :
  c' <> c -> snd (perf_event_output n c e pe) !! c' = pe !! c'.
Proof.
  intros Hne. unfold perf_event_output.
  repeat match goal with
         | |- context [if ?b then _ else _] => destruct b
         | |- context [match ?x with _ => _ end] => destruct x
         end; cbn; rewrite ?list_lookup_insert_ne by auto; reflexivity.
Qed.

(** A perf-buffer program returns 0, reads the clock once and adds one
    to its counter slot in every state: its counter counts invocations,
    whether or not the event was written. *)
Theorem perf_counter_counts_invocations (p : program) (ev : env) (s : state) :
  let o := invoke p ev s in
  retval o = 0 /\
  counters_val (post o) =
    alter (fun v => wrap64 (v + 1)) (perfbuf_slot p) (counters_val s) /\
  ktime_reads (post o) = S (ktime_reads s).
Proof.
  destruct p; unfold invoke; exec_counters; repeat split; reflexivity.
Qed.

(** What a perf-buffer program writes.  The kprobe and tracepoint
    programs hand exactly one event to the perf buffer (clock value, upper
    word of the uid/gid word, CPU, event type, data word) and leave the
    buffers of all other CPUs untouched; the raw-tracepoint program hands
    over nothing and leaves all buffers untouched. *)
Theorem perf_event_contents (p : program) (ev : env) (s : state) :
  let o := invoke p ev s in
  let e := perf_event_of p ev (clock ev (ktime_reads s)) in
  match p with
  | prog_raw_tracepoint_perf _ =>
      outputs (trace o) = [] /\ perf_events_buf (post o) = perf_events_buf s
  | _ =>
      (exists rc, outputs (trace o) = [(e, rc)]) /\
      (forall c, c <> cpu ev ->
         perf_events_buf (post o) !! c = perf_events_buf s !! c)
  end.
Proof.
  destruct p; unfold invoke, perf_event_of; exec_counters.
  1, 2: rewrite current_cpu_index; cbn;
        (split; [eexists; reflexivity |]);
        intros c Hc; apply perf_event_output_other_cpu; exact Hc.
  split; reflexivity.
Qed.
End PerfbufPrograms.

Section RingbufCapacity.
Import RingbufThroughput Workload.

Lemma apply_step_within_capacity (st : step) (s : state) :
  Z.of_nat (length (ringbuf_events_data s)) <= 8191 /\ length (counters_val s) = 10%nat ->
  Z.of_nat (length (ringbuf_events_data (apply_step st s))) <= 8191 /\
  length (counters_val (apply_step st s)) = 10%nat.
Proof.
  intros [Hr Hc]. destruct st as [p ev | n]; cbn [apply_step].
  - pose proof (ringbuf_event_contents p ev s) as H. cbv zeta in H.
    destruct (ringbuf_has_room _ _ _) eqn:Hroom.
    + destruct H as (_ & -> & -> & _).
      apply has_room_length in Hroom.
      rewrite length_app, length_alter. cbn [length]. lia.
    + destruct H as (_ & ->). auto.
  - cbn. rewrite length_drop. lia.
Qed.

(** Over any run of the ring-buffer object from its loaded state, the
    unread events fit the ring buffer and the counters array keeps its ten
    entries. *)
Theorem ringbuf_never_overfilled (w : list step) :
  Z.of_nat (length (ringbuf_events_data (replay w init)))
    * ringbuf_record_len Benchmark.sizeof_event
    <= ringbuf_max_entries ringbuf_events - 1 /\
  length (counters_val (replay w init)) = 10%nat.
Proof.
  assert (H : forall s,
             Z.of_nat (length (ringbuf_events_data s)) <= 8191 /\
             length (counters_val s) = 10%nat ->
             Z.of_nat (length (ringbuf_events_data (replay w s))) <= 8191 /\
             length (counters_val (replay w s)) = 10%nat).
  { induction w as [| st w IH]; intros s Hs; [exact Hs |].
    cbn [replay]. apply IH, apply_step_within_capacity, Hs. }
  destruct (H init) as [Hr Hc].
  { unfold init; cbn [ringbuf_events_data counters_val length].
    rewrite length_replicate. lia. }
  split; [| exact Hc].
  change (ringbuf_record_len Benchmark.sizeof_event) with 32.
  change (ringbuf_max_entries ringbuf_events) with 262144. lia.
Qed.
End RingbufCapacity.
